(** * LeadHarvest: the scraping core and the email enrichment, verified

    A shallow embedding of the functions of [scraper/maps_scraper.py],
    [utils/email_finder.py] and [api/main.py] that the behavioural
    properties of the system are about, with the properties themselves.

    Conventions.
    - Python [str] is [string] (a sequence of 8-bit characters); the
      character classes and [lower] are the ASCII ones.
    - A Python [dict] with string keys is a [gmap string _].
    - An exception is a value of [exn]; code that may raise returns
      [res A], and [try]/[except] is a [match] on it.
    - The browser, the network and the HTML parser are outside the
      program: each is a record of answers (a fixture) the code queries. *)

From Stdlib Require Import String Ascii List Arith ZArith Lia Bool Sorted Permutation.
From stdpp Require Import base tactics option list gmap strings sorting fin_maps.

Local Open Scope string_scope.
Local Open Scope nat_scope.
Local Open Scope list_scope.

(** * Exceptions *)

Inductive exn : Type :=
| NoSuchElementException (msg : string)
| TimeoutException (msg : string)
| StaleElementReferenceException (msg : string)
| WebDriverException (msg : string)
| RequestException (msg : string)
| AttributeError (msg : string)
| NameError (msg : string)
| PyException (msg : string).

(** [str(e)] *)
Definition exn_str (e : exn) : string :=
  match e with
  | NoSuchElementException m | TimeoutException m
  | StaleElementReferenceException m | WebDriverException m
  | RequestException m | AttributeError m | NameError m | PyException m => m
  end.

Inductive res (A : Type) : Type :=
| Ok (a : A)
| Raise (e : exn).
Arguments Ok {A} a.
Arguments Raise {A} e.

Definition res_bind {A B} (r : res A) (k : A -> res B) : res B :=
  match r with
  | Ok a => k a
  | Raise e => Raise e
  end.

Notation "'do' x <- r ; k" := (res_bind r (fun x => k))
  (at level 10, x name, r at level 100, k at level 200).
Notation "'do_' r ; k" := (res_bind r (fun _ => k))
  (at level 10, r at level 100, k at level 200).

(** * Python string operations *)

Module Py.

(** [s.startswith(p)] *)
Definition startswith (s p : string) : bool := String.prefix p s.

(** [sub in s] *)
Fixpoint contains (sub s : string) : bool :=
  String.prefix sub s
  || match s with
     | EmptyString => false
     | String _ s' => contains sub s'
     end.

(** [s[n:]] *)
Fixpoint drop (n : nat) (s : string) : string :=
  match n, s with
  | S n', String _ s' => drop n' s'
  | _, _ => s
  end.

(** [s.split(sep)] for a non-empty [sep]: the pieces between the
    successive occurrences of [sep], found left to right.  [split_go]
    returns the piece in progress and the pieces that follow it; [skip]
    counts the characters of a separator still to be passed over. *)
Fixpoint split_go (sep : string) (skip : nat) (s : string) : string * list string :=
  match s with
  | EmptyString => (EmptyString, [])
  | String c s' =>
      match skip with
      | S k => split_go sep k s'
      | 0 =>
          if String.prefix sep s
          then (EmptyString,
                let (p, ps) := split_go sep (String.length sep - 1) s' in p :: ps)
          else let (p, ps) := split_go sep 0 s' in (String c p, ps)
      end
  end.

Definition split (sep s : string) : list string :=
  let (p, ps) := split_go sep 0 s in p :: ps.

(** [s.replace(old, new)], which is [new.join(s.split(old))]. *)
Definition replace (old new s : string) : string :=
  String.concat new (split old s).

Definition is_upper (c : ascii) : bool :=
  let n := nat_of_ascii c in (65 <=? n) && (n <=? 90).
Definition is_lower (c : ascii) : bool :=
  let n := nat_of_ascii c in (97 <=? n) && (n <=? 122).
Definition is_digit (c : ascii) : bool :=
  let n := nat_of_ascii c in (48 <=? n) && (n <=? 57).
Definition is_alpha (c : ascii) : bool := is_upper c || is_lower c.
Definition is_alnum (c : ascii) : bool := is_alpha c || is_digit c.

Definition lower_char (c : ascii) : ascii :=
  if is_upper c then ascii_of_nat (nat_of_ascii c + 32) else c.

Fixpoint map_chars (f : ascii -> ascii) (s : string) : string :=
  match s with
  | EmptyString => EmptyString
  | String c s' => String (f c) (map_chars f s')
  end.

(** [s.lower()] *)
Definition lower (s : string) : string := map_chars lower_char s.

Fixpoint filter_chars (p : ascii -> bool) (s : string) : string :=
  match s with
  | EmptyString => EmptyString
  | String c s' => if p c then String c (filter_chars p s') else filter_chars p s'
  end.

Fixpoint take_while (p : ascii -> bool) (s : string) : string :=
  match s with
  | String c s' => if p c then String c (take_while p s') else EmptyString
  | EmptyString => EmptyString
  end.

Fixpoint drop_while (p : ascii -> bool) (s : string) : string :=
  match s with
  | String c s' => if p c then drop_while p s' else s
  | EmptyString => EmptyString
  end.

(** [s.strip()] *)
Definition lstrip (s : string) : string := drop_while Ascii.is_space s.
Definition strip (s : string) : string :=
  String.rev (lstrip (String.rev (lstrip s))).

(** [s.split()]: the words between runs of white space. *)
Definition words (s : string) : list string := String.words s.

(** [re.sub('^' + p, '', s)] for a literal [p]. *)
Definition remove_prefix (p s : string) : string :=
  if String.prefix p s then drop (String.length p) s else s.

(** Truth value of a string: [bool(s)]. *)
Definition nonempty (s : string) : bool :=
  match s with
  | EmptyString => false
  | String _ _ => true
  end.

(** [l[-1]] of a non-empty list, [l[0]]. *)
Definition last_of (l : list string) : string := List.last l EmptyString.
Definition first_of (l : list string) : string := List.hd EmptyString l.

(** Every character of [s] satisfies [p]. *)
Fixpoint all_chars (p : ascii -> bool) (s : string) : bool :=
  match s with
  | EmptyString => true
  | String c s' => p c && all_chars p s'
  end.

(** No character of [s] satisfies [p]. *)
Definition no_char (p : ascii -> bool) (s : string) : bool :=
  all_chars (fun c => negb (p c)) s.



(** [s] has no upper-case letter: [s.lower() == s]. *)
Definition lowercase (s : string) : bool :=
  all_chars (fun c => negb (is_upper c)) s.

End Py.

(** * Python values and records *)

(** The values a business record holds. *)
Inductive pyval : Type :=
| VNone
| VStr (s : string)
| VInt (n : Z)
| VList (l : list string)
| VDict (d : gmap string string).

(** [bool(v)] *)
Definition truthy (v : pyval) : bool :=
  match v with
  | VNone => false
  | VStr s => Py.nonempty s
  | VInt n => negb (Z.eqb n 0)
  | VList l => match l with [] => false | _ :: _ => true end
  | VDict d => negb (bool_decide (d = ∅))
  end.

(** [isinstance(v, dict)] *)
Definition is_dict (v : pyval) : bool :=
  match v with
  | VDict _ => true
  | _ => false
  end.

(** A business record: a [dict] from field names to values. *)
Abbreviation record := (gmap string pyval).

(** * Result Pager: [GoogleMapsScraper.scroll_results] *)

Module Pager.

(** A browser element is an opaque handle. *)
Definition Element := nat.

(** What the browser answers during one pass of the code: the two scroll
    scripts and [driver.find_elements] per CSS selector. *)
Record Observation := {
  scroll_container : res unit;
  scroll_window : res unit;
  find_elements : string -> res (list Element)
}.

Definition business_selectors : list string :=
  [ "div[role='article']"; ".section-result"; ".place-result";
    "a[href*='maps/place']" ].

Definition max_scroll_attempts : nat := 10.

(** [for selector in business_selectors: elements = find_elements(selector);
    if elements: business_elements = elements; break].  When no selector
    matches, [business_elements] keeps its previous value. *)
Fixpoint find_business_elements (o : Observation) (selectors : list string)
    (business_elements : list Element) : res (list Element) :=
  match selectors with
  | [] => Ok business_elements
  | selector :: rest =>
      do elements <- find_elements o selector;
      match elements with
      | [] => find_business_elements o rest business_elements
      | _ :: _ => Ok elements
      end
  end.

Record LoopState := {
  scroll_attempts : nat;
  prev_results_count : nat;
  current_results_count : nat;
  business_elements : list Element;
  (** ghost: every value [current_results_count] has had, oldest first *)
  history : list nat
}.

(** How a call ends.  [result] is what the call gives: the count it
    returns, or the exception that leaves it.  The other fields are
    ghosts: the passes of the loop that were begun, the successive
    values of [current_results_count], and whether an exception reached
    one of the function's [except] clauses. *)
Record Outcome := {
  result : res nat;
  iterations : nat;
  counts : list nat;
  failed : bool
}.

(** The count returned, for a call that returns. *)
Definition returned (out : Outcome) : nat :=
  match result out with
  | Ok n => n
  | Raise _ => 0
  end.

(** The [while] condition. *)
Definition continue (max_results : nat) (st : LoopState) : bool :=
  (current_results_count st <? max_results)
  && (prev_results_count st <? current_results_count st)
  && (scroll_attempts st <? max_scroll_attempts).

(** One pass of the loop body. *)
Definition iteration (o : Observation) (st : LoopState) : res LoopState :=
  let scroll_attempts' := S (scroll_attempts st) in
  do_ (match scroll_container o with
       | Ok _ => Ok tt
       | Raise _ => scroll_window o
       end);
  let prev' := current_results_count st in
  do elems <- find_business_elements o business_selectors (business_elements st);
  let cur' := length elems in
  Ok {| scroll_attempts := scroll_attempts';
        prev_results_count := prev';
        current_results_count := cur';
        business_elements := elems;
        history := history st ++ [cur'] |}.

(** The browser over a whole call: the lookup of the results container
    and the screenshot before the first count, what it answers during
    pass [k] of the loop (pass 0 is the count before the loop), the
    screenshot after the loop, and the screenshot an [except] clause
    takes, under the file name it is given. *)
Record Browser := {
  locate : res unit;
  dom : nat -> Observation;
  screenshot_after : res unit;
  screenshot_on_error : string -> res unit
}.

(** The two [except] clauses of the function: a screenshot under a name
    that depends on the exception caught, then [return 0].  The
    screenshot is not guarded: what it raises leaves the function. *)
Definition on_error (b : Browser) (e : exn) : res nat :=
  let name :=
    match e with
    | NoSuchElementException _ => "error_no_results_container.png"
    | _ => "error_during_scrolling.png"
    end in
  do_ screenshot_on_error b name;
  Ok 0.

(** Leaving through an [except] clause, [n] passes of the loop having
    been begun. *)
Definition caught (b : Browser) (e : exn) (n : nat) (history : list nat)
    : Outcome :=
  {| result := on_error b e; iterations := n; counts := history; failed := true |}.

(** What follows the loop: the screenshot, then
    [return current_results_count]. *)
Definition after_loop (b : Browser) (st : LoopState) : Outcome :=
  match screenshot_after b with
  | Ok _ =>
      {| result := Ok (current_results_count st);
         iterations := scroll_attempts st;
         counts := history st; failed := false |}
  | Raise e => caught b e (scroll_attempts st) (history st)
  end.

(** The loop and what follows it.  Any exception lands in the function's
    [except] clauses. *)
Fixpoint scroll_loop (fuel : nat) (b : Browser)
    (max_results : nat) (st : LoopState) : option Outcome :=
  if continue max_results st then
    match fuel with
    | 0 => None
    | S fuel' =>
        match iteration (dom b (S (scroll_attempts st))) st with
        | Ok st' => scroll_loop fuel' b max_results st'
        | Raise e => Some (caught b e (S (scroll_attempts st)) (history st))
        end
    end
  else Some (after_loop b st).

(** [scroll_results(max_results)] *)
Definition scroll_results (fuel : nat) (b : Browser) (max_results : nat)
    : option Outcome :=
  match (do_ locate b; find_business_elements (dom b 0) business_selectors []) with
  | Raise e => Some (caught b e 0 [])
  | Ok elems =>
      scroll_loop fuel b max_results
        {| scroll_attempts := 0;
           prev_results_count := 0;
           current_results_count := length elems;
           business_elements := elems;
           history := [length elems] |}
  end.

(** A page whose first selector matches [n] elements. *)
Definition articles (n : nat) : Observation :=
  {| scroll_container := Ok tt;
     scroll_window := Ok tt;
     find_elements := fun selector =>
       if String.eqb selector "div[role='article']" then Ok (seq 0 n) else Ok [] |}.

(** Five results at first, three after the first scroll. *)
Definition shrinking : Browser :=
  {| locate := Ok tt;
     dom := fun k => match k with 0 => articles 5 | _ => articles 3 end;
     screenshot_after := Ok tt;
     screenshot_on_error := fun _ => Ok tt |}.

(** A session that has died: every call raises, the screenshot of the
    [except] clause too. *)
Definition dead : Browser :=
  {| locate := Raise (WebDriverException "invalid session id");
     dom := fun _ =>
       {| scroll_container := Raise (WebDriverException "invalid session id");
          scroll_window := Raise (WebDriverException "invalid session id");
          find_elements := fun _ => Raise (WebDriverException "invalid session id") |};
     screenshot_after := Raise (WebDriverException "invalid session id");
     screenshot_on_error := fun _ => Raise (WebDriverException "invalid session id") |}.

End Pager.

(** * Session Manager: [GoogleMapsScraper.setup_driver] *)

Module Session.

Definition Driver := nat.

(** The ways the code asks for a browser session. *)
Inductive Strategy : Type :=
| VersionMatched (version : string)  (** [ChromeDriverManager(version=...)] *)
| DefaultFetch                       (** [ChromeDriverManager()] *)
| BuiltIn                            (** [webdriver.Chrome(options=...)] *)
| ExplicitBinary (path : string).    (** the same, with [binary_location] set *)

Inductive Event : Type :=
| Launch (s : Strategy)
| Sleep (seconds : nat).

(** The machine the code runs on. *)
Record Env := {
  os_name_nt : bool;               (** [os.name == 'nt'] *)
  chrome_path : option string;     (** the binary found at the top of the function *)
  chrome_version : res string;     (** [subprocess.run([chrome_path, '--version'])] *)
  launch : Strategy -> res Driver
}.

Definition max_attempts : nat := 3.

Definition has_local_binary (env : Env) : option string :=
  match chrome_path env with
  | Some p => if Py.nonempty p && os_name_nt env then Some p else None
  | None => None
  end.

(** The version the first round asks for, when it asks for one:
    ["Google Chrome 120.0.6099.130"] gives ["120.0.0.0"]. *)
Definition version_matched_target (env : Env) : option string :=
  match has_local_binary env with
  | None => None
  | Some _ =>
      match chrome_version env with
      | Raise _ => None
      | Ok version_text =>
          if Py.nonempty version_text then
            let version_parts := Py.split " " version_text in
            if 3 <=? length version_parts then
              let chrome_version := Py.last_of version_parts in
              let major_version := Py.first_of (Py.split "." chrome_version) in
              Some (major_version +:+ ".0.0.0")
            else None
          else None
      end
  end.

(** One pass of the [try] block, for the value [attempts] has after its
    increment: the session or the exception, and what was done. *)
Definition round (env : Env) (attempts : nat) (last_error : option exn)
    : res Driver * list Event :=
  match attempts with
  | 1 =>
      let default := (launch env DefaultFetch, [Launch DefaultFetch]) in
      match version_matched_target env with
      | Some v =>
          match launch env (VersionMatched v) with
          | Ok d => (Ok d, [Launch (VersionMatched v)])
          | Raise _ => (fst default, Launch (VersionMatched v) :: snd default)
          end
      | None => default
      end
  | 2 => (launch env BuiltIn, [Launch BuiltIn])
  | _ =>
      match has_local_binary env with
      | Some p => (launch env (ExplicitBinary p), [Launch (ExplicitBinary p)])
      | None =>
          (Raise (default
                    (PyException "Failed to initialize ChromeDriver after multiple attempts")
                    last_error), [])
      end
  end.

Record Setup := {
  result : res Driver;
  attempts_made : nat;
  trace : list Event
}.

(** [str(last_error)] *)
Definition str_last_error (last_error : option exn) : string :=
  match last_error with
  | Some e => exn_str e
  | None => "None"
  end.

(** The message of the exception raised when [self.driver] is still
    [None] after the loop. *)
Definition error_msg (last_error : option exn) : string :=
  if Py.contains "not a valid Win32 application" (str_last_error last_error)
  then "ChromeDriver compatibility issue. Please ensure you have the latest Google Chrome "
       +:+ "installed and try again. This error typically occurs when there's a mismatch between "
       +:+ "ChromeDriver and Chrome versions."
  else "Failed to initialize ChromeDriver: " +:+ str_last_error last_error.

(** [while attempts < max_attempts], with [remaining = max_attempts - attempts]. *)
Fixpoint attempt_loop (env : Env) (remaining : nat) (attempts : nat)
    (last_error : option exn) (done : list Event) : Setup :=
  match remaining with
  | 0 =>
      {| result := Raise (PyException (error_msg last_error));
         attempts_made := attempts; trace := done |}
  | S remaining' =>
      let attempts := S attempts in
      match round env attempts last_error with
      | (Ok d, evs) =>
          {| result := Ok d; attempts_made := attempts; trace := done ++ evs |}
      | (Raise e, evs) =>
          attempt_loop env remaining' attempts (Some e) (done ++ evs ++ [Sleep 1])
      end
  end.

Definition setup_driver (env : Env) : Setup :=
  attempt_loop env max_attempts 0 None [].

(** The launches of a trace, and its pauses. *)
Definition launches (t : list Event) : list Strategy :=
  omap (fun ev => match ev with Launch s => Some s | Sleep _ => None end) t.
Definition sleeps (t : list Event) : list nat :=
  omap (fun ev => match ev with Sleep n => Some n | Launch _ => None end) t.

(** A Windows machine with the browser installed, on which no driver
    can be started. *)
Definition env_windows : Env :=
  {| os_name_nt := true;
     chrome_path := Some "C:\Program Files\Google\Chrome\Application\chrome.exe";
     chrome_version := Ok "Google Chrome 120.0.6099.130";
     launch := fun _ => Raise (WebDriverException "session not created") |}.

(** Any other machine, on which no driver can be started. *)
Definition env_posix : Env :=
  {| os_name_nt := false;
     chrome_path := None;
     chrome_version := Raise (PyException "no binary");
     launch := fun _ => Raise (WebDriverException "session not created") |}.

End Session.

(** * Detail Extractor: [GoogleMapsScraper.extract_business_data] *)

Module Detail.

(** An element of the page: its text and its attributes. *)
Record Element := {
  text : string;
  get_attribute : string -> option string
}.

(** A button that may disclose the opening hours: what clicking it and
    listing the grid cells gives, and what the click that closes the
    panel gives. *)
Record HoursButton := {
  click_and_find : res (list Element);
  close : res unit
}.

(** The detail page as the browser shows it. *)
Record Page := {
  load : res unit;                     (** [driver.get(url)], the screenshot *)
  wait_presence : string -> res unit;  (** [self.wait.until(presence...)] *)
  find_element : string -> res Element;
  hours_buttons : res (list HoursButton)
}.

(** ** The two numeric patterns *)

(** [re.match(r'\d+\.\d+', s)] *)
Definition match_decimal (s : string) : option string :=
  let int_part := Py.take_while Py.is_digit s in
  match Py.drop_while Py.is_digit s with
  | String c after_dot =>
      let frac_part := Py.take_while Py.is_digit after_dot in
      if Ascii.eqb c "." && Py.nonempty int_part && Py.nonempty frac_part
      then Some (int_part +:+ "." +:+ frac_part)
      else None
  | EmptyString => None
  end.

(** [re.search(r'(\d+\.\d+)', s).group(1)] *)
Fixpoint search_decimal (s : string) : option string :=
  match match_decimal s with
  | Some d => Some d
  | None =>
      match s with
      | EmptyString => None
      | String _ s' => search_decimal s'
      end
  end.

(** [re.search(r'(\d+)', s).group(1)] *)
Fixpoint search_digits (s : string) : option string :=
  match s with
  | EmptyString => None
  | String c s' =>
      if Py.is_digit c then Some (Py.take_while Py.is_digit s)
      else search_digits s'
  end.

(** ** Selector chains *)

(** [for selector in selectors: try: <step> except NoSuchElementException:
    continue].  [step] gives the new value of the field and whether the
    loop breaks. *)
Fixpoint chain (page : Page) (selectors : list string)
    (step : string -> Element -> pyval -> pyval * bool) (v : pyval) : res pyval :=
  match selectors with
  | [] => Ok v
  | selector :: rest =>
      match find_element page selector with
      | Raise (NoSuchElementException _) => chain page rest step v
      | Raise e => Raise e
      | Ok el =>
          let (v', stop) := step selector el v in
          if stop then Ok v' else chain page rest step v'
      end
  end.

Definition text_step (_ : string) (el : Element) (_ : pyval) : pyval * bool :=
  (VStr (text el), Py.nonempty (text el)).

Definition phone_step (selector : string) (el : Element) (v : pyval) : pyval * bool :=
  let v' :=
    if Py.startswith selector "a[href" then
      match get_attribute el "href" with
      | Some href =>
          if Py.nonempty href then VStr (Py.replace "tel:" "" href) else v
      | None => v
      end
    else VStr (text el) in
  (v', truthy v').

Definition website_step (_ : string) (el : Element) (_ : pyval) : pyval * bool :=
  let v' := match get_attribute el "href" with
            | Some href => VStr href
            | None => VNone
            end in
  (v', truthy v').

(** [el.text or el.get_attribute("aria-label")] *)
Definition text_or_label (el : Element) : option string :=
  if Py.nonempty (text el) then Some (text el) else get_attribute el "aria-label".

Definition rating_step (_ : string) (el : Element) (v : pyval) : pyval * bool :=
  match text_or_label el with
  | Some rating_text =>
      if Py.nonempty rating_text then
        match search_decimal rating_text with
        | Some number => (VStr number, true)
        | None => (VStr rating_text, true)
        end
      else (v, false)
  | None => (v, false)
  end.

Definition reviews_step (_ : string) (el : Element) (v : pyval) : pyval * bool :=
  match text_or_label el with
  | Some reviews_text =>
      if Py.nonempty reviews_text then
        match search_digits reviews_text with
        | Some number => (VStr number, true)
        | None => (v, false)
        end
      else (v, false)
  | None => (v, false)
  end.

Definition name_selectors : list string :=
  [ "h1.fontHeadlineLarge"; "h1.section-hero-header-title"; "h1";
    "div.fontHeadlineLarge" ].
Definition address_selectors : list string :=
  [ "button[data-item-id='address']"; "button[data-tooltip='Copy address']";
    "button[aria-label*='address']";
    "div[data-attrid='kc:/location/location:address']" ].
Definition phone_selectors : list string :=
  [ "button[data-item-id='phone:tel:']";
    "button[data-tooltip='Copy phone number']"; "button[aria-label*='phone']";
    "a[href^='tel:']";
    "div[data-attrid='kc:/collection/knowledge_panels/has_phone:phone']" ].
Definition website_selectors : list string :=
  [ "a[data-item-id='authority']"; "a[aria-label*='website']";
    "a[data-tooltip='Open website']"; "a[href*='http']:not([href*='google'])" ].
Definition category_selectors : list string :=
  [ "button[jsaction*='pane.rating.category']"; "span[jstcache*='category']";
    "div[jsaction*='category']"; "button[jsaction*='category']" ].
Definition rating_selectors : list string :=
  [ "div.fontDisplayLarge"; "span.section-star-display";
    "span[aria-label*='stars']"; "span[aria-label*='rating']" ].
Definition reviews_selectors : list string :=
  [ "span[jsaction*='reviews']"; "span[aria-label*='reviews']";
    "div[class*='review']"; "button[jsaction*='reviews']" ].

(** ** Opening hours *)

Definition days : list string :=
  [ "monday"; "tuesday"; "wednesday"; "thursday"; "friday"; "saturday"; "sunday" ].

(** [for day in days: if day in text: hours[day] = text.replace(day, "").strip()] *)
Definition record_days (text : string) (hours : gmap string string)
    : gmap string string :=
  foldl (fun h day =>
           if Py.contains day text
           then <[day := Py.strip (Py.replace day "" text)]> h
           else h)
        hours days.

Definition scan_hours (elements : list Element) (hours : gmap string string)
    : gmap string string :=
  foldl (fun h el => record_days (Py.lower (text el)) h) hours elements.

(** [for button in hours_buttons: try: ... except Exception: continue];
    what a pass has written to [hours] stays when the pass then raises. *)
Fixpoint try_hours_buttons (buttons : list HoursButton)
    (hours : gmap string string) : gmap string string :=
  match buttons with
  | [] => hours
  | button :: rest =>
      match click_and_find button with
      | Raise _ => try_hours_buttons rest hours
      | Ok hours_elements =>
          let hours' := scan_hours hours_elements hours in
          match close button with
          | Raise _ => try_hours_buttons rest hours'
          | Ok _ =>
              if bool_decide (hours' = ∅)
              then try_hours_buttons rest hours'
              else hours'
          end
      end
  end.

Definition extract_hours (page : Page) : gmap string string :=
  match hours_buttons page with
  | Raise _ => ∅
  | Ok buttons => try_hours_buttons buttons ∅
  end.

(** ** Coordinates, read off the address *)

Definition parse_coordinates (url : string) : gmap string string :=
  match Py.split "!3d" url with
  | _ :: after_3d :: _ =>
      match Py.split "!4d" after_3d with
      | latitude :: after_4d :: _ =>
          let longitude := Py.first_of (Py.split "!" after_4d) in
          <["longitude" := longitude]> (<["latitude" := latitude]> ∅)
      | _ => ∅
      end
  | _ => ∅
  end.

(** ** The extraction *)

Definition name_wait_selectors : list string :=
  [ "h1.fontHeadlineLarge"; "h1.section-hero-header-title";
    "h1[class*='headline']"; "div[class*='fontHeadline']"; "div[class*='header']" ].

(** The wait for the business name: [element_found], which is only
    logged.  No exception leaves this step. *)
Fixpoint wait_for_name (page : Page) (selectors : list string) : bool :=
  match selectors with
  | [] => false
  | selector :: rest =>
      match wait_presence page selector with
      | Ok _ => true
      | Raise (TimeoutException _) => wait_for_name page rest
      | Raise _ => false
      end
  end.

(** [{k: v for k, v in business_data.items() if v or isinstance(v, dict)}] *)
Definition keep (kv : string * pyval) : Prop :=
  truthy kv.2 || is_dict kv.2 = true.

Definition non_empty_data (business_data : record) : record :=
  filter keep business_data.

(** The body of the outer [try]. *)
Definition extract_body (page : Page) (url : string) : res record :=
  do_ load page;
  let element_found := wait_for_name page name_wait_selectors in
  do name <- chain page name_selectors text_step (VStr "");
  do address <- chain page address_selectors text_step (VStr "");
  do phone <- chain page phone_selectors phone_step (VStr "");
  do website <- chain page website_selectors website_step (VStr "");
  do category <- chain page category_selectors text_step (VStr "");
  do rating <- chain page rating_selectors rating_step (VStr "");
  do reviews_count <- chain page reviews_selectors reviews_step (VStr "");
  let hours := extract_hours page in
  let coordinates := parse_coordinates url in
  let business_data : record :=
    <["coordinates" := VDict coordinates]>
    (<["hours" := VDict hours]>
    (<["reviews_count" := reviews_count]>
    (<["rating" := rating]>
    (<["category" := category]>
    (<["website" := website]>
    (<["phone" := phone]>
    (<["address" := address]>
    (<["name" := name]>
    (<["url" := VStr url]> ∅))))))))) in
  Ok (non_empty_data business_data).

(** [extract_business_data(url)]: the [except Exception] clause turns
    whatever the body raises into a record. *)
Definition extract_business_data (page : Page) (url : string) : res record :=
  match extract_body page url with
  | Ok business_data => Ok business_data
  | Raise e => Ok (<["error" := VStr (exn_str e)]> (<["url" := VStr url]> ∅))
  end.

(** ** Fixtures *)

Definition no_such_element (selector : string) : res Element :=
  Raise (NoSuchElementException selector).

(** A page on which no selector matches anything. *)
Definition blank_page : Page :=
  {| load := Ok tt;
     wait_presence := fun selector => Raise (TimeoutException selector);
     find_element := no_such_element;
     hours_buttons := Ok [] |}.

(** A page whose only content is a rating element with the given text. *)
Definition rating_page (rating_text : string) : Page :=
  {| load := Ok tt;
     wait_presence := fun selector => Raise (TimeoutException selector);
     find_element := fun selector =>
       if String.eqb selector "div.fontDisplayLarge"
       then Ok {| text := rating_text; get_attribute := fun _ => None |}
       else no_such_element selector;
     hours_buttons := Ok [] |}.

Definition place_url : string :=
  "https://www.google.com/maps/place/Cafe/data=!4m6!3m5!8m2!3d40.7128!4d-74.0060!16s".
Definition plain_url : string := "https://www.google.com/maps/place/Cafe".

End Detail.

(** * Email Discovery: [utils/email_finder.py] *)

Module Email.

(** ** The network *)

(** An anchor of a page, as [soup.find_all('a', href=True)] gives it:
    [link.get('href')] and [link.text]. *)
Record Anchor := {
  href : string;
  link_text : string
}.

(** The answer to [requests.get]: [response.text], and the anchors the
    HTML parser finds in it. *)
Record Response := {
  response_text : string;
  anchors : list Anchor
}.

(** [requests.get(url, ...)] followed by [raise_for_status()]. *)
Definition Web := string -> res Response.

(** ** [extract_domain_from_url] *)

(** [re.sub(r'^https?://', '', s)] *)
Definition remove_scheme (s : string) : string :=
  if Py.startswith s "https://" then Py.drop 8 s
  else if Py.startswith s "http://" then Py.drop 7 s
  else s.

Definition extract_domain_from_url (url : string) : option string :=
  if Py.nonempty url then
    let domain := Py.lower (Py.strip url) in
    let domain := remove_scheme domain in
    let domain := Py.remove_prefix "www." domain in
    Some (Py.first_of (Py.split "/" domain))
  else None.

(** ** [find_emails_on_page] *)

Definition one_of (chars : string) (c : ascii) : bool :=
  existsb (Ascii.eqb c) (list_ascii_of_string chars).

(** [[a-zA-Z0-9._%+-]] and [[a-zA-Z0-9.-]] *)
Definition is_local_char (c : ascii) : bool := Py.is_alnum c || one_of "._%+-" c.
Definition is_domain_char (c : ascii) : bool := Py.is_alnum c || one_of ".-" c.

(** The backtracking of [[a-zA-Z0-9.-]+\.[a-zA-Z]{2,}]: of the points of
    the run, the last one followed by two letters or more; what stands
    before it, and the letters after it. *)
Fixpoint tld_split (run : string) : option (string * string) :=
  match run with
  | EmptyString => None
  | String c rest =>
      match tld_split rest with
      | Some (before, tld) => Some (String c before, tld)
      | None =>
          let tld := Py.take_while Py.is_alpha rest in
          if Ascii.eqb c "." && (2 <=? String.length tld)
          then Some (EmptyString, tld)
          else None
      end
  end.

(** [re.match(self.email_pattern, s)] *)
Definition match_email (s : string) : option string :=
  let local := Py.take_while is_local_char s in
  match Py.drop_while is_local_char s with
  | String c after_at =>
      if Ascii.eqb c "@" && Py.nonempty local then
        match Py.take_while is_domain_char after_at with
        | String d run =>
            match tld_split run with
            | Some (before, tld) =>
                Some (local +:+ "@" +:+ String d before +:+ "." +:+ tld)
            | None => None
            end
        | EmptyString => None
        end
      else None
  | EmptyString => None
  end.

(** [re.findall(self.email_pattern, s)]; [skip] counts the characters
    of the last match still to be passed over. *)
Fixpoint findall_emails_go (skip : nat) (s : string) : list string :=
  match s with
  | EmptyString => []
  | String _ s' =>
      match skip with
      | S k => findall_emails_go k s'
      | 0 =>
          match match_email s with
          | Some email => email :: findall_emails_go (String.length email - 1) s'
          | None => findall_emails_go 0 s'
          end
      end
  end.

Definition findall_emails (s : string) : list string := findall_emails_go 0 s.

(** [s.endswith(suffix)] *)
Definition endswith (s suffix : string) : bool :=
  String.prefix (String.rev suffix) (String.rev s).

Definition file_suffixes : list string :=
  [ ".jpg"; ".png"; ".gif"; ".jpeg"; ".pdf"; ".doc"; ".docx"; ".xls"; ".xlsx";
    ".js"; ".css" ].

(** The set [emails] at the end of [find_emails_on_page]. *)
Definition find_emails_on_page (html_content : string) : gset string :=
  foldl (fun emails email =>
           if existsb (endswith (Py.lower email)) file_suffixes
           then emails
           else {[ Py.lower email ]} ∪ emails)
        ∅ (findall_emails html_content).

(** ** [scrape_website_for_emails] *)

Definition mentions_contact (link : Anchor) : bool :=
  Py.nonempty (href link)
  && (Py.contains "contact" (Py.lower (link_text link))
      || Py.contains "about" (Py.lower (link_text link))
      || Py.contains "contact" (Py.lower (href link))
      || Py.contains "about" (Py.lower (href link))).

Definition is_absolute (h : string) : bool :=
  Py.startswith h "http://" || Py.startswith h "https://".

(** The address a link stands for, when the code gives it one: none for
    an absolute address on another domain. *)
Definition target (domain : string) (h : string) : option string :=
  if Py.startswith h "/" then Some ("https://" +:+ domain +:+ h)
  else if is_absolute h then
    match extract_domain_from_url h with
    | Some d => if Py.contains domain d then Some h else None
    | None => None
    end
  else Some ("https://" +:+ domain +:+ "/" +:+ h).

(** The [for link in ...] loop: the queue it leaves, and whether it ran
    to its end.  [contact_url] is a local variable of the function: it
    keeps the value of the previous pass when this one assigns none, and
    reading it before any assignment raises. *)
Fixpoint scan_links (domain : string) (visited_urls : gset string)
    (links : list Anchor) (contact_url : option string)
    (urls_to_visit : list string) : list string * res unit :=
  match links with
  | [] => (urls_to_visit, Ok tt)
  | link :: rest =>
      if mentions_contact link then
        let contact_url :=
          match target domain (href link) with
          | Some u => Some u
          | None => contact_url
          end in
        match contact_url with
        | None => (urls_to_visit, Raise (NameError "contact_url"))
        | Some u =>
            let urls_to_visit :=
              if bool_decide (u ∉ visited_urls) && bool_decide (u ∉ urls_to_visit)
              then urls_to_visit ++ [u]
              else urls_to_visit in
            scan_links domain visited_urls rest (Some u) urls_to_visit
        end
      else scan_links domain visited_urls rest contact_url urls_to_visit
  end.

Record Crawl := {
  all_emails : gset string;
  visited_urls : gset string;
  urls_to_visit : list string;
  page_count : nat;
  (** ghost: the addresses passed to [requests.get], in order *)
  fetched : list string
}.

(** [current_url = urls_to_visit.pop(0); if current_url in visited_urls:
    continue], until an address not yet visited is popped. *)
Fixpoint pop_unvisited (visited : gset string) (queue : list string)
    : option (string * list string) :=
  match queue with
  | [] => None
  | current_url :: rest =>
      if bool_decide (current_url ∈ visited)
      then pop_unvisited visited rest
      else Some (current_url, rest)
  end.

(** The [while urls_to_visit and page_count < max_pages] loop, with
    [pages_left = max_pages - page_count]. *)
Fixpoint crawl_pages (web : Web) (domain : string) (pages_left : nat)
    (st : Crawl) : Crawl :=
  match pages_left with
  | 0 => st
  | S pages_left' =>
      match pop_unvisited (visited_urls st) (urls_to_visit st) with
      | None =>
          {| all_emails := all_emails st; visited_urls := visited_urls st;
             urls_to_visit := []; page_count := page_count st;
             fetched := fetched st |}
      | Some (current_url, queue) =>
          let visited := {[ current_url ]} ∪ visited_urls st in
          let count := S (page_count st) in
          let log := fetched st ++ [current_url] in
          match web current_url with
          | Raise (RequestException _) =>
              crawl_pages web domain pages_left'
                {| all_emails := all_emails st; visited_urls := visited;
                   urls_to_visit := queue; page_count := count; fetched := log |}
          | Raise _ =>
              {| all_emails := all_emails st; visited_urls := visited;
                 urls_to_visit := queue; page_count := count; fetched := log |}
          | Ok response =>
              let emails :=
                all_emails st ∪ find_emails_on_page (response_text response) in
              if count =? 1 then
                match scan_links domain visited (anchors response) None queue with
                | (queue', Ok _) =>
                    crawl_pages web domain pages_left'
                      {| all_emails := emails; visited_urls := visited;
                         urls_to_visit := queue'; page_count := count;
                         fetched := log |}
                | (queue', Raise _) =>
                    {| all_emails := emails; visited_urls := visited;
                       urls_to_visit := queue'; page_count := count;
                       fetched := log |}
                end
              else
                crawl_pages web domain pages_left'
                  {| all_emails := emails; visited_urls := visited;
                     urls_to_visit := queue; page_count := count; fetched := log |}
          end
      end
  end.

(** The address after [if not url.startswith(('http://', 'https://'))]. *)
Definition with_scheme (url : string) : string :=
  if is_absolute url then url else "https://" +:+ url.

(** The state at the end of [scrape_website_for_emails(url, max_pages)].
    The queue is built from [url] as it was passed, before the scheme
    is added to the local variable. *)
Definition crawl (web : Web) (url : string) (max_pages : nat) : Crawl :=
  let urls_to_visit := [url] in
  let url := with_scheme url in
  let domain := default "None" (extract_domain_from_url url) in
  crawl_pages web domain max_pages
    {| all_emails := ∅; visited_urls := ∅; urls_to_visit := urls_to_visit;
       page_count := 0; fetched := [] |}.

(** [list(all_emails)]: the order of a set's elements is the
    interpreter's; [elements] fixes one. *)
Definition scrape_website_for_emails (web : Web) (url : string)
    (max_pages : nat) : list string :=
  elements (all_emails (crawl web url max_pages)).

(** ** [generate_common_emails] *)

Definition common_prefixes : list string :=
  [ "contact"; "info"; "hello"; "support"; "admin"; "sales";
    "help"; "office"; "mail"; "team"; "business"; "inquiries";
    "feedback"; "customer"; "service"; "general"; "manager" ].

(** A method of [str] called on [v]. *)
Definition as_str (v : pyval) (method : string) : res string :=
  match v with
  | VStr s => Ok s
  | _ => Raise (AttributeError method)
  end.

(** [s[0]] of a non-empty string. *)
Definition initial (s : string) : string := String.substring 0 1 s.

Definition generate_common_emails (domain : string)
    (business_name owner_name : pyval) : res (list string) :=
  if negb (Py.nonempty domain) then Ok []
  else
    let generated_emails :=
      map (fun prefix => prefix +:+ "@" +:+ domain) common_prefixes in
    do generated_emails <-
      (if truthy business_name then
         do name <- as_str business_name "lower";
         let clean_name := Py.filter_chars Py.is_alnum (Py.lower name) in
         if Py.nonempty clean_name then
           Ok (generated_emails
               ++ [ clean_name +:+ "@" +:+ domain;
                    "info@" +:+ clean_name +:+ "."
                    +:+ Py.last_of (Py.split "." domain) ])
         else Ok generated_emails
       else Ok generated_emails);
    if truthy owner_name then
      do owner <- as_str owner_name "lower";
      let name_parts := Py.words (Py.lower owner) in
      if 2 <=? length name_parts then
        let first_name := Py.filter_chars Py.is_lower (Py.first_of name_parts) in
        let last_name := Py.filter_chars Py.is_lower (Py.last_of name_parts) in
        if Py.nonempty first_name && Py.nonempty last_name then
          Ok (generated_emails
              ++ [ first_name +:+ "@" +:+ domain;
                   last_name +:+ "@" +:+ domain;
                   first_name +:+ "." +:+ last_name +:+ "@" +:+ domain;
                   initial first_name +:+ last_name +:+ "@" +:+ domain;
                   first_name +:+ initial last_name +:+ "@" +:+ domain ])
        else Ok generated_emails
      else Ok generated_emails
    else Ok generated_emails.

(** ** [enrich_business_data_with_emails] *)

Definition priority_prefixes : list string :=
  [ "contact"; "info"; "hello"; "support"; "admin"; "sales"; "hello" ].

(** [email.split('@')[0].lower()] *)
Definition email_prefix (email : string) : string :=
  Py.lower (Py.first_of (Py.split "@" email)).

Definition has_priority (email : string) : bool :=
  existsb (String.eqb (email_prefix email)) priority_prefixes.

(** [email_sort_key(email)] is the pair [(rank email, email)]. *)
Definition rank (email : string) : nat :=
  if has_priority email then 0 else 1.

(** The order of the keys: Python compares pairs component by component. *)
Definition key_le (a b : string) : Prop :=
  rank a < rank b \/ (rank a = rank b /\ String.le a b).

#[global] Instance key_le_dec : RelDecision key_le.
Proof. intros a b. unfold key_le. apply _. Defined.

(** [sorted(emails, key=email_sort_key)].  Two emails with the same key
    are the same string, so every sorting algorithm gives the same
    list; see [EmailSpec.sorted_emails_unique]. *)
Definition sorted_emails (emails : list string) : list string :=
  merge_sort key_le emails.

Definition default_max_pages : nat := 3.

(** The list [emails] before the [if emails:] test. *)
Definition discover (web : Web) (business_data : record) : res (list string) :=
  let website := default VNone (business_data !! "website") in
  let business_name := default (VStr "") (business_data !! "name") in
  if truthy website then
    do url <- as_str website "startswith";
    let emails := scrape_website_for_emails web url default_max_pages in
    match extract_domain_from_url url with
    | Some domain =>
        if Py.nonempty domain then
          do generated_emails <- generate_common_emails domain business_name VNone;
          match emails, generated_emails with
          | [], _ :: _ => Ok generated_emails
          | _, _ => Ok emails
          end
        else Ok emails
    | None => Ok emails
    end
  else Ok [].

(** The body of the [try]: how it ends, and the record as it then is. *)
Definition enrich_body (web : Web) (business_data : record) : res unit * record :=
  match discover web business_data with
  | Raise e => (Raise e, business_data)
  | Ok [] =>
      (Ok tt,
       <["primary_email" := VNone]> (<["emails" := VList []]> business_data))
  | Ok emails =>
      let sorted := sorted_emails emails in
      (Ok tt,
       <["primary_email" := match sorted with
                            | first :: _ => VStr first
                            | [] => VNone
                            end]>
         (<["emails" := VList sorted]> business_data))
  end.

Definition enrich_business_data_with_emails (web : Web) (business_data : record)
    : record :=
  match enrich_body web business_data with
  | (Ok _, business_data) => business_data
  | (Raise _, business_data) =>
      <["primary_email" := VNone]> (<["emails" := VList []]> business_data)
  end.

(** ** Fixtures *)

(** No address can be fetched. *)
Definition web_down : Web := fun url => Raise (RequestException url).

(** A site with a home page that links to two pages of interest. *)
Definition web_two_links : Web := fun url =>
  if String.eqb url "https://example.com" then
    Ok {| response_text := "welcome";
          anchors := [ {| href := "/contact"; link_text := "Contact us" |};
                       {| href := "/about"; link_text := "About" |} ] |}
  else if String.eqb url "https://example.com/contact" then
    Ok {| response_text := "write to Info@Example.com"; anchors := [] |}
  else if String.eqb url "https://example.com/about" then
    Ok {| response_text := "our logo: logo@2x.png"; anchors := [] |}
  else Raise (RequestException url).

Definition acme : record :=
  <["website" := VStr "https://acme.com"]> (<["name" := VStr "Acme"]> ∅).

Definition no_website : record := <["name" := VStr "Acme"]> ∅.

Definition odd_website : record :=
  <["website" := VInt 5]> (<["name" := VStr "Acme"]> ∅).

(** A one-page site that shows three addresses. *)
Definition web_three : Web := fun url =>
  if String.eqb url "https://x.com" then
    Ok {| response_text := "zeta@x.com, info@x.com, contact@x.com"; anchors := [] |}
  else Raise (RequestException url).

Definition x_com : record :=
  <["website" := VStr "https://x.com"]> (<["name" := VStr "X"]> ∅).

(** The part of an address before its first [@]. *)
Definition local_part (email : string) : string :=
  Py.first_of (Py.split "@" email).

(** The role prefixes that put an address first. *)
Definition role_prefixes : list string :=
  [ "contact"; "info"; "hello"; "support"; "admin"; "sales" ].

End Email.

(** * Export: [flatten_business_data] of [api/main.py] *)

Module Flatten.

(** [for key, value in d.items(): flat_business[f"{prefix}{key}"] = value] *)
Definition spread (prefix : string) (d : gmap string string)
    (flat_business : record) : record :=
  map_fold (fun key value flat => <[prefix +:+ key := VStr value]> flat)
    flat_business d.

(** The [# Handle coordinates] step. *)
Definition flatten_coordinates (flat_business : record) : record :=
  match flat_business !! "coordinates" with
  | Some (VDict coordinates) =>
      delete "coordinates" (spread "coordinates_" coordinates flat_business)
  | _ => flat_business
  end.

(** The [# Handle hours] step. *)
Definition flatten_hours (flat_business : record) : record :=
  match flat_business !! "hours" with
  | Some (VDict hours) => delete "hours" (spread "hours_" hours flat_business)
  | _ => flat_business
  end.

(** [f"email_{i+1}"], while [i + 1] is a single digit ([i] stays below
    five in the code). *)
Definition email_key (i : nat) : string :=
  "email_" +:+ String (Ascii.ascii_of_nat (48 + S i)) "".

(** [for i, email in enumerate(emails): flat_business[f"email_{i+1}"] = email],
    from index [i] on. *)
Fixpoint number_emails (i : nat) (emails : list string)
    (flat_business : record) : record :=
  match emails with
  | [] => flat_business
  | email :: rest =>
      number_emails (S i) rest (<[email_key i := VStr email]> flat_business)
  end.

(** [", ".join(emails)] *)
Definition join (sep : string) (l : list string) : string := String.concat sep l.

(** The [# Handle emails] step. *)
Definition flatten_emails (flat_business : record) : record :=
  match flat_business !! "emails" with
  | Some (VList emails) =>
      delete "emails"
        (<["all_emails" := VStr (join ", " emails)]>
           (number_emails 0 (take 5 emails) flat_business))
  | _ => flat_business
  end.

Definition template_limit : nat := 1000.

(** The [# Handle email template] step. *)
Definition flatten_template (flat_business : record) : record :=
  match flat_business !! "email_template" with
  | Some (VStr template) =>
      if template_limit <? String.length template
      then <["email_template" := VStr (String.substring 0 997 template +:+ "...")]>
             flat_business
      else flat_business
  | _ => flat_business
  end.

(** [flatten_business_data(business)] *)
Definition flatten_business_data (business : record) : record :=
  flatten_template (flatten_emails (flatten_hours (flatten_coordinates business))).

(** The flattening that [save_results_to_file] of [scraper/maps_scraper.py]
    does for the CSV format: coordinates and hours only. *)
Definition flat_business_csv (business : record) : record :=
  flatten_hours (flatten_coordinates business).

(** ** Fixtures *)

Definition cafe : record :=
  <["email_template" := VStr "Hello"]>
  (<["emails" := VList ["info@cafe.com"; "owner@cafe.com"]]>
  (<["hours" := VDict (<["monday" := "9-5"]> ∅)]>
  (<["coordinates" := VDict (<["latitude" := "40.7"]> (<["longitude" := "-74.0"]> ∅))]>
  (<["name" := VStr "Cafe"]> ∅)))).

End Flatten.

(** * Link extraction: [check_for_new_ui] and [extract_business_links] *)

Module Links.

(** A business element of the results page, with what the browser
    answers when the code handles it. *)
Record Card := {
  get_href : res (option string);  (** [element.get_attribute("href")] *)
  scroll_into_view : res unit;     (** the [scrollIntoView] script *)
  click : res unit;                (** [element.click()] *)
  js_click : res unit;             (** the [click()] script *)
  current_url : res string         (** [driver.current_url] after the click *)
}.

(** The results page: the screenshots by file name; per indicator of the
    new interface, the elements found and what [is_displayed()] answers
    for each; per selector, the business elements found. *)
Record Browser := {
  save_screenshot : string -> res unit;
  indicated : string -> res (list (res bool));
  find_elements : string -> res (list Card)
}.

(** ** [check_for_new_ui] *)

Definition new_ui_indicators : list string :=
  [ "a.hfpxzc"; "div[jsaction*='mouseover:pane.placeCard']";
    "div.lI9IFe"; "div.bJzME" ].

(** [any(e.is_displayed() for e in elements)] *)
Fixpoint any_displayed (elements : list (res bool)) : res bool :=
  match elements with
  | [] => Ok false
  | is_displayed :: rest =>
      do shown <- is_displayed;
      if shown then Ok true else any_displayed rest
  end.

Fixpoint check_indicators (b : Browser) (indicators : list string) : res bool :=
  match indicators with
  | [] => Ok false
  | indicator :: rest =>
      do elements <- indicated b indicator;
      do shown <- any_displayed elements;
      if shown then Ok true else check_indicators b rest
  end.

Definition check_for_new_ui (b : Browser) : bool :=
  match check_indicators b new_ui_indicators with
  | Ok new_ui => new_ui
  | Raise _ => false
  end.

(** ** [extract_business_links] *)

Definition business_selectors : list string :=
  [ "div[role='article']"; ".section-result"; ".place-result";
    "a[href*='maps/place']"; "div.Nv2PK"; "a.hfpxzc" ].

(** The selectors after the two [insert(0, ...)] made for the new
    interface. *)
Definition selectors_for (new_ui : bool) : list string :=
  if new_ui
  then "a[jsaction*='mouseup:placeCard']" :: "a.hfpxzc" :: business_selectors
  else business_selectors.

(** The elements of the first selector that finds any, with that
    selector; [business_elements = []] and [used_selector = ""] when
    none does. *)
Fixpoint find_business_elements (b : Browser) (selectors : list string)
    : res (list Card * string) :=
  match selectors with
  | [] => Ok ([], "")
  | selector :: rest =>
      do elements <- find_elements b selector;
      match elements with
      | [] => find_business_elements b rest
      | _ :: _ => Ok (elements, selector)
      end
  end.

(** ["maps/place" in business_url or "maps/search" in business_url] *)
Definition is_business_url (business_url : string) : bool :=
  Py.contains "maps/place" business_url || Py.contains "maps/search" business_url.

(** The loop over elements that are links themselves. *)
Fixpoint direct_links (elements : list Card) (business_links : list string)
    : list string :=
  match elements with
  | [] => business_links
  | element :: rest =>
      match get_href element with
      | Ok (Some business_url) =>
          if Py.nonempty business_url && is_business_url business_url
          then direct_links rest (business_links ++ [business_url])
          else direct_links rest business_links
      | Ok None | Raise _ => direct_links rest business_links
      end
  end.

(** The loop over elements that have to be clicked.  What follows the
    [append] in a pass ([driver.back()], the wait for the results, the
    recovery) runs inside the handlers of the pass: it changes neither
    the list nor the elements the loop goes through. *)
Fixpoint clicked_links (elements : list Card) (business_links : list string)
    : list string :=
  match elements with
  | [] => business_links
  | element :: rest =>
      let reached :=
        do_ scroll_into_view element;
        do_ (match click element with
             | Ok _ => Ok tt
             | Raise _ => js_click element
             end);
        current_url element in
      match reached with
      | Ok business_url =>
          if is_business_url business_url
          then clicked_links rest (business_links ++ [business_url])
          else clicked_links rest business_links
      | Raise _ => clicked_links rest business_links
      end
  end.

(** The body of the [try]: the links collected, and how the body ends. *)
Definition extract_body (b : Browser) : list string * res unit :=
  match save_screenshot b "before_extracting_links.png" with
  | Raise e => ([], Raise e)
  | Ok _ =>
      let new_ui := check_for_new_ui b in
      match find_business_elements b (selectors_for new_ui) with
      | Raise e => ([], Raise e)
      | Ok ([], _) => ([], Ok tt)
      | Ok (business_elements, used_selector) =>
          let business_links :=
            if Py.contains "maps/place" used_selector
               || Py.contains "href" used_selector || new_ui
            then direct_links business_elements []
            else clicked_links business_elements [] in
          (business_links, save_screenshot b "after_extracting_links.png")
      end
  end.

(** [extract_business_links()]: the [except] clause takes a screenshot,
    which is not guarded, and the links collected so far are returned. *)
Definition extract_business_links (b : Browser) : res (list string) :=
  match extract_body b with
  | (business_links, Ok _) => Ok business_links
  | (business_links, Raise _) =>
      do_ save_screenshot b "error_extracting_links.png";
      Ok business_links
  end.

(** ** Fixtures *)

Definition link (address : string) : Card :=
  {| get_href := Ok (Some address);
     scroll_into_view := Ok tt; click := Ok tt; js_click := Ok tt;
     current_url := Ok address |}.

(** A results page of the new interface with two place cards and a link
    to something else. *)
Definition new_results : Browser :=
  {| save_screenshot := fun _ => Ok tt;
     indicated := fun indicator =>
       if String.eqb indicator "a.hfpxzc" then Ok [Ok true] else Ok [];
     find_elements := fun selector =>
       if String.eqb selector "a.hfpxzc"
       then Ok [ link "https://www.google.com/maps/place/Cafe";
                 link "https://example.com/ad";
                 link "https://www.google.com/maps/place/Bar" ]
       else Ok [] |}.

End Links.

(** * The whole run: [scrape_businesses] *)

Module Batch.

(** What the browser and the files answer during one call: to
    [self.search], during the first [scroll_results], to the calls of
    the fallback search and during its [scroll_results], during
    [extract_business_links], to the writing of [business_links.txt],
    on the detail page of the [i]-th link; and the clock. *)
Record Session := {
  search : res string;
  pager : Pager.Browser;
  direct_get : string -> res unit;
  fallback_screenshot : res unit;
  pager_again : Pager.Browser;
  links_page : Links.Browser;
  write_links : list string -> res unit;
  detail : nat -> Detail.Page;
  now : string
}.

(** [self.scroll_results(max_results)].  The fuel of the iteration cap is
    enough for the loop to end (see [PagerSpec.scroll_loop_ok]). *)
Definition scroll_count (b : Pager.Browser) (max_results : nat) : res nat :=
  match Pager.scroll_results Pager.max_scroll_attempts b max_results with
  | Some out => Pager.result out
  | None => Raise (PyException "scroll_results")
  end.

Definition direct_url (query location : string) : string :=
  Py.replace " " "+"
    ("https://www.google.com/maps/search/" +:+ query +:+ "+" +:+ location).

(** The dummy record made when nothing was scraped. *)
Definition error_record (msg query location timestamp : string) : record :=
  <["timestamp" := VStr timestamp]>
  (<["location" := VStr location]>
  (<["query" := VStr query]>
  (<["error" := VStr msg]> ∅))).

(** [business_data and (business_data.get("name") or
    business_data.get("address"))] *)
Definition has_basic_data (business_data : record) : bool :=
  negb (bool_decide (business_data = ∅))
  && (truthy (default VNone (business_data !! "name"))
      || truthy (default VNone (business_data !! "address"))).

(** The loop over the links, from the [i]-th on. *)
Fixpoint scrape_links (s : Session) (i : nat) (business_links : list string)
    (results : list record) : list record :=
  match business_links with
  | [] => results
  | url :: rest =>
      match Detail.extract_business_data (detail s i) url with
      | Ok business_data =>
          if has_basic_data business_data
          then scrape_links s (S i) rest (results ++ [business_data])
          else scrape_links s (S i) rest results
      | Raise _ => scrape_links s (S i) rest results
      end
  end.

(** The count of loaded results, after the fallback search when the
    first count is 0; what the fallback raises is logged and the first
    count kept. *)
Definition load_results (s : Session) (query location : string)
    (max_results : nat) : res nat :=
  do loaded_count <- scroll_count (pager s) max_results;
  if loaded_count =? 0 then
    match (do_ direct_get s (direct_url query location);
           do_ fallback_screenshot s;
           scroll_count (pager_again s) max_results) with
    | Ok fallback_count => Ok fallback_count
    | Raise _ => Ok loaded_count
    end
  else Ok loaded_count.

(** The body of the outer [try]. *)
Definition scrape_body (s : Session) (query location : string)
    (max_results : nat) : res (list record) :=
  do_ search s;
  do_ load_results s query location max_results;
  do business_links <- Links.extract_business_links (links_page s);
  do_ (match business_links with
       | [] => Ok tt
       | _ :: _ => write_links s business_links
       end);
  let business_links := take max_results business_links in
  match scrape_links s 0 business_links [] with
  | [] => Ok [error_record "No businesses found" query location (now s)]
  | results => Ok results
  end.

(** [scrape_businesses(query, location, max_results)] *)
Definition scrape_businesses (s : Session) (query location : string)
    (max_results : nat) : list record :=
  match scrape_body s query location max_results with
  | Ok results => results
  | Raise e => [error_record (exn_str e) query location (now s)]
  end.

(** ** Fixtures *)

(** A detail page that shows a name and nothing else. *)
Definition named_page (name : string) : Detail.Page :=
  {| Detail.load := Ok tt;
     Detail.wait_presence := fun _ => Ok tt;
     Detail.find_element := fun selector =>
       if String.eqb selector "h1"
       then Ok {| Detail.text := name; Detail.get_attribute := fun _ => None |}
       else Detail.no_such_element selector;
     Detail.hours_buttons := Ok [] |}.

(** A run in which everything answers. *)
Definition smooth : Session :=
  {| search := Ok "https://www.google.com/maps/search/cafes%20in%20Paris";
     pager := Pager.shrinking;
     direct_get := fun _ => Ok tt;
     fallback_screenshot := Ok tt;
     pager_again := Pager.shrinking;
     links_page := Links.new_results;
     write_links := fun _ => Ok tt;
     detail := fun _ => named_page "Cafe";
     now := "2024-01-01T00:00:00" |}.

(** A run whose session has died before the search. *)
Definition lost : Session :=
  {| search := Raise (WebDriverException "invalid session id");
     pager := Pager.dead;
     direct_get := fun _ => Raise (WebDriverException "invalid session id");
     fallback_screenshot := Raise (WebDriverException "invalid session id");
     pager_again := Pager.dead;
     links_page := Links.new_results;
     write_links := fun _ => Ok tt;
     detail := fun _ => Detail.blank_page;
     now := "2024-01-01T00:00:00" |}.

End Batch.

(** * Facts about the string operations *)

Module PyFacts.
Import Py.

Lemma sapp_cons c s t : String c s +:+ t = String c (s +:+ t).
Proof. reflexivity. Qed.

Lemma sapp_nil_l s : "" +:+ s = s.
Proof. reflexivity. Qed.

Lemma sapp_nil_r s : s +:+ "" = s.
Proof. induction s as [|c s IH]; [reflexivity|]. rewrite sapp_cons, IH. reflexivity. Qed.

Lemma sapp_assoc s t u : (s +:+ t) +:+ u = s +:+ (t +:+ u).
Proof.
  induction s as [|c s IH]; [reflexivity|]. rewrite !sapp_cons, IH. reflexivity.
Qed.


Lemma all_chars_take_while p s : all_chars p (take_while p s) = true.
Proof.
  induction s as [|c s IH]; [reflexivity|]. simpl.
  destruct (p c) eqn:Hc; [|reflexivity]. simpl. rewrite Hc, IH. reflexivity.
Qed.


Lemma contains_cons sub c s :
  contains sub (String c s) = false ->
  String.prefix sub (String c s) = false /\ contains sub s = false.
Proof. simpl. intros H. apply orb_false_iff in H. exact H. Qed.

(** Splitting at a separator that does not occur gives the string back. *)
Lemma split_absent sep s : contains sep s = false -> split sep s = [s].
Proof.
  unfold split. intros H.
  assert (Hgo : split_go sep 0 s = (s, [])).
  { induction s as [|c s IH]; [reflexivity|].
    apply contains_cons in H as [Hp Hc].
    cbn [split_go]. rewrite Hp, (IH Hc). reflexivity. }
  rewrite Hgo. reflexivity.
Qed.

(** ** Lower case *)

Lemma lower_char_not_upper c : is_upper (lower_char c) = false.
Proof. destruct c as [[] [] [] [] [] [] [] []]; reflexivity. Qed.

Lemma lowercase_lower s : lowercase (lower s) = true.
Proof.
  unfold lowercase, lower. induction s as [|c s IH]; [reflexivity|]. simpl.
  rewrite lower_char_not_upper, IH. reflexivity.
Qed.

Lemma lower_lowercase s : lowercase s = true -> lower s = s.
Proof.
  unfold lowercase, lower. induction s as [|c s IH]; [reflexivity|]. simpl.
  intros H. apply andb_true_iff in H as [Hc Hs]. rewrite (IH Hs).
  unfold lower_char. destruct (is_upper c); [discriminate|reflexivity].
Qed.

Lemma lowercase_cons c s :
  lowercase (String c s) = negb (is_upper c) && lowercase s.
Proof. reflexivity. Qed.

Lemma lowercase_app s t : lowercase (s +:+ t) = lowercase s && lowercase t.
Proof.
  induction s as [|c s IH]; [reflexivity|].
  rewrite sapp_cons, !lowercase_cons, IH, andb_assoc. reflexivity.
Qed.

Lemma lowercase_drop n : forall s, lowercase s = true -> lowercase (drop n s) = true.
Proof.
  induction n as [|n IH]; intros [|c s] H; simpl; auto.
  apply IH. rewrite lowercase_cons in H. apply andb_true_iff in H. tauto.
Qed.

Lemma lowercase_remove_prefix p s :
  lowercase s = true -> lowercase (remove_prefix p s) = true.
Proof.
  intros H. unfold remove_prefix. destruct (String.prefix p s); [|exact H].
  apply lowercase_drop, H.
Qed.

Lemma lowercase_filter p s : lowercase s = true -> lowercase (filter_chars p s) = true.
Proof.
  induction s as [|c s IH]; [reflexivity|]. rewrite lowercase_cons. intros H.
  apply andb_true_iff in H as [Hc Hs]. simpl.
  destruct (p c); [rewrite lowercase_cons, Hc|]; auto.
Qed.

Lemma lowercase_split_go sep : forall s skip p ps,
  lowercase s = true -> split_go sep skip s = (p, ps) ->
  lowercase p = true /\ Forall (fun x => lowercase x = true) ps.
Proof.
  induction s as [|c s IH]; intros skip p ps Hs; cbn [split_go].
  - intros H. injection H as <- <-. split; [reflexivity|constructor].
  - rewrite lowercase_cons in Hs. apply andb_true_iff in Hs as [Hc Hs].
    destruct skip as [|k]; [|apply IH, Hs].
    destruct (String.prefix sep (String c s)).
    + destruct (split_go sep (String.length sep - 1) s) as [q qs] eqn:Hgo.
      intros H. injection H as <- <-.
      destruct (IH _ _ _ Hs Hgo) as [Hq Hqs].
      split; [reflexivity|constructor; assumption].
    + destruct (split_go sep 0 s) as [q qs] eqn:Hgo.
      intros H. injection H as <- <-.
      destruct (IH _ _ _ Hs Hgo) as [Hq Hqs].
      split; [rewrite lowercase_cons, Hc, Hq; reflexivity|assumption].
Qed.

Lemma lowercase_split sep s :
  lowercase s = true -> Forall (fun x => lowercase x = true) (split sep s).
Proof.
  intros Hs. unfold split. destruct (split_go sep 0 s) as [p ps] eqn:Hgo.
  destruct (lowercase_split_go _ _ _ _ _ Hs Hgo). constructor; assumption.
Qed.

Lemma lowercase_first_of l :
  Forall (fun x => lowercase x = true) l -> lowercase (first_of l) = true.
Proof. intros [|x l' Hx _]; [reflexivity|exact Hx]. Qed.

Lemma lowercase_last_of l :
  Forall (fun x => lowercase x = true) l -> lowercase (last_of l) = true.
Proof.
  unfold last_of. induction 1 as [|x l' Hx Hl IH]; [reflexivity|].
  destruct l'; [exact Hx|exact IH].
Qed.

End PyFacts.

(** * Properties of the Result Pager *)

Module PagerSpec.
Import Pager.

(** ** What the browser shows, apart from the loop *)





(** The last count did not grow: it is the first count and is zero, or it
    is no more than the count before it. *)
Definition stalled (out : Outcome) : Prop :=
  (counts out = [returned out] /\ returned out = 0)
  \/ exists init prev,
       counts out = init ++ [prev; returned out] /\ returned out <= prev.

(** The three ways out of the loop. *)
Definition stop_reason (max_results : nat) (out : Outcome) : Prop :=
  max_results <= returned out
  \/ iterations out = max_scroll_attempts
  \/ stalled out.

(** ** Invariants of the loop *)

(** What holds of the loop state every time the [while] condition is
    evaluated. *)
Definition loop_inv (st : LoopState) : Prop :=
  scroll_attempts st <= max_scroll_attempts
  /\ exists init,
       history st = init ++ [current_results_count st]
       /\ length init = scroll_attempts st
       /\ Sorted lt init
       /\ (init = [] \/ exists init', init = init' ++ [prev_results_count st]).

Definition first_pass_inv (st : LoopState) : Prop :=
  scroll_attempts st = 0 -> prev_results_count st = 0.


(** What the caller can rely on. *)
Definition outcome_ok (b : Browser) (out : Outcome) : Prop :=
  iterations out <= max_scroll_attempts
  /\ Sorted lt (removelast (counts out))
  /\ (failed out = false ->
      result out = Ok (List.last (counts out) 0)
      /\ length (counts out) = S (iterations out))
  /\ (failed out = true -> exists e, result out = on_error b e).

(** The state before the first evaluation of the [while] condition. *)
Definition first_state (elems : list Element) : LoopState :=
  {| scroll_attempts := 0;
     prev_results_count := 0;
     current_results_count := length elems;
     business_elements := elems;
     history := [length elems] |}.

Lemma continue_true max_results st :
  continue max_results st = true ->
  current_results_count st < max_results
  /\ prev_results_count st < current_results_count st
  /\ scroll_attempts st < max_scroll_attempts.
Proof.
  unfold continue. rewrite !andb_true_iff, !Nat.ltb_lt. tauto.
Qed.

Lemma continue_false max_results st :
  continue max_results st = false ->
  max_results <= current_results_count st
  \/ current_results_count st <= prev_results_count st
  \/ max_scroll_attempts <= scroll_attempts st.
Proof.
  unfold continue. rewrite !andb_false_iff, !Nat.ltb_ge. tauto.
Qed.


(** What a pass that does not raise leaves. *)
Lemma iteration_ok o st st' :
  iteration o st = Ok st' ->
  exists elems,
    find_business_elements o business_selectors (business_elements st) = Ok elems
    /\ st' = {| scroll_attempts := S (scroll_attempts st);
                prev_results_count := current_results_count st;
                current_results_count := length elems;
                business_elements := elems;
                history := history st ++ [length elems] |}.
Proof.
  unfold iteration. intros Hit.
  destruct (match scroll_container o with Ok _ => Ok tt | Raise _ => scroll_window o end);
    cbn [res_bind] in Hit; [|discriminate].
  destruct (find_business_elements o business_selectors (business_elements st))
    as [elems|]; cbn [res_bind] in Hit; [|discriminate].
  injection Hit as <-. exists elems. split; reflexivity.
Qed.

Lemma loop_inv_sorted max_results st :
  loop_inv st -> continue max_results st = true -> Sorted lt (history st).
Proof.
  intros (_ & init & Hh & _ & Hs & Htl) Hc.
  apply continue_true in Hc as (_ & Hlt & _).
  rewrite Hh. apply Sorted_snoc; [exact Hs|].
  destruct Htl as [-> | [init' ->]]; constructor. exact Hlt.
Qed.

Lemma iteration_inv max_results o st st' :
  loop_inv st -> continue max_results st = true ->
  iteration o st = Ok st' ->
  loop_inv st' /\ scroll_attempts st' = S (scroll_attempts st).
Proof.
  intros Hinv Hc Hit.
  pose proof (loop_inv_sorted _ _ Hinv Hc) as Hsorted.
  destruct Hinv as (_ & init & Hh & Hlen & _ & _).
  apply continue_true in Hc as (_ & _ & Hatt).
  apply iteration_ok in Hit as (elems & _ & ->). simpl. split; [|reflexivity].
  unfold loop_inv; simpl.
  split; [lia|]. exists (history st). repeat split.
  - rewrite Hh, length_app. simpl. lia.
  - exact Hsorted.
  - right. exists init. exact Hh.
Qed.



(** ** Leaving the loop *)

Lemma caught_ok b e n history :
  n <= max_scroll_attempts -> Sorted lt (removelast history) ->
  outcome_ok b (caught b e n history).
Proof.
  intros Hn Hs. unfold outcome_ok, caught; simpl.
  split; [exact Hn|]. split; [exact Hs|].
  split; [discriminate|]. intros _. exists e. reflexivity.
Qed.

Lemma after_loop_ok b st : loop_inv st -> outcome_ok b (after_loop b st).
Proof.
  intros (Hle & init & Hh & Hlen & Hs & _). unfold after_loop.
  destruct (screenshot_after b) as [|e].
  - unfold outcome_ok; simpl. rewrite Hh, removelast_last, last_last, length_app.
    split; [exact Hle|]. split; [exact Hs|].
    split; [|discriminate]. intros _. split; [reflexivity|simpl; lia].
  - apply caught_ok; [exact Hle|]. rewrite Hh, removelast_last. exact Hs.
Qed.

Lemma after_loop_reason b max_results st :
  loop_inv st -> first_pass_inv st ->
  continue max_results st = false ->
  failed (after_loop b st) = false -> stop_reason max_results (after_loop b st).
Proof.
  intros (Hle & init & Hh & Hlen & _ & Htl) Hfirst Hc. unfold after_loop.
  destruct (screenshot_after b); [intros _|discriminate].
  unfold stop_reason, stalled, returned; simpl.
  destruct (continue_false _ _ Hc) as [H|[H|H]]; [auto| |right; left; lia].
  right. right. destruct Htl as [->|[init' ->]].
  - left. simpl in Hlen. rewrite Hh. rewrite (Hfirst (eq_sym Hlen)) in H.
    assert (current_results_count st = 0) as -> by lia. auto.
  - right. exists init', (prev_results_count st).
    rewrite Hh, <- app_assoc. auto.
Qed.

(** The loop ends, within the fuel of the iteration cap. *)
Lemma scroll_loop_ok b max_results fuel : forall st,
  loop_inv st ->
  max_scroll_attempts - scroll_attempts st <= fuel ->
  exists out, scroll_loop fuel b max_results st = Some out /\ outcome_ok b out.
Proof.
  induction fuel as [|fuel IH]; intros st Hinv Hfuel; simpl;
    destruct (continue max_results st) eqn:Hc.
  - apply continue_true in Hc. lia.
  - eexists. split; [reflexivity|]. apply after_loop_ok, Hinv.
  - destruct (iteration _ st) as [st'|e] eqn:Hit.
    + destruct (iteration_inv _ _ _ _ Hinv Hc Hit) as [Hinv' Hatt].
      apply IH; [exact Hinv'|lia].
    + eexists; split; [reflexivity|].
      pose proof (continue_true _ _ Hc) as (_ & _ & Hatt).
      destruct Hinv as (Hle & init & Hh & Hlen & Hs & _).
      apply caught_ok; [lia|]. rewrite Hh, removelast_last. exact Hs.
  - eexists. split; [reflexivity|]. apply after_loop_ok, Hinv.
Qed.

(** It ends for a reason. *)
Lemma scroll_loop_reason b max_results fuel : forall st out,
  loop_inv st -> first_pass_inv st ->
  scroll_loop fuel b max_results st = Some out ->
  failed out = false -> stop_reason max_results out.
Proof.
  induction fuel as [|fuel IH]; intros st out Hinv Hfirst; simpl;
    destruct (continue max_results st) eqn:Hc; try discriminate.
  - intros Hout. injection Hout as <-. apply after_loop_reason; assumption.
  - destruct (iteration _ st) as [st'|e] eqn:Hit.
    + destruct (iteration_inv _ _ _ _ Hinv Hc Hit) as [Hinv' Hatt].
      apply IH; [exact Hinv'|].
      intros H0. rewrite Hatt in H0. discriminate.
    + intros Hout. injection Hout as <-. discriminate.
  - intros Hout. injection Hout as <-. apply after_loop_reason; assumption.
Qed.





(** ** The claim *)




(** With a session that has died nothing is returned: the screenshot of
    the [except] clause raises in its turn. *)
Example dead_session_raises :
  result <$> scroll_results 10 dead 10
  = Some (Raise (WebDriverException "invalid session id")).
Proof. reflexivity. Qed.

End PagerSpec.

(** * Properties of the Session Manager *)

Module SessionSpec.
Import Session.

Section AllFail.
Variable env : Env.
Hypothesis all_fail : forall s, exists e, launch env s = Raise e.

Lemma round_fails attempts last_error :
  exists e evs, round env attempts last_error = (Raise e, evs).
Proof.
  unfold round.
  destruct attempts as [|[|[|n]]].
  - destruct (has_local_binary env) as [p|]; [|eauto].
    destruct (all_fail (ExplicitBinary p)) as [e ->]. eauto.
  - destruct (all_fail DefaultFetch) as [e He].
    destruct (version_matched_target env) as [v|]; simpl; rewrite ?He; [|eauto].
    destruct (all_fail (VersionMatched v)) as [e' ->]. eauto.
  - destruct (all_fail BuiltIn) as [e ->]. eauto.
  - destruct (has_local_binary env) as [p|]; [|eauto].
    destruct (all_fail (ExplicitBinary p)) as [e ->]. eauto.
Qed.

Lemma round1_trace last_error :
  exists e,
    round env 1 last_error
    = (Raise e,
       match version_matched_target env with
       | Some v => [Launch (VersionMatched v)]
       | None => []
       end ++ [Launch DefaultFetch]).
Proof.
  unfold round. destruct (all_fail DefaultFetch) as [e He].
  destruct (version_matched_target env) as [v|]; simpl; rewrite He; [|eauto].
  destruct (all_fail (VersionMatched v)) as [e' ->]. eauto.
Qed.

Lemma round3_trace e2 :
  launch env BuiltIn = Raise e2 ->
  exists e,
    round env 3 (Some e2)
    = (Raise e,
       match has_local_binary env with
       | Some p => [Launch (ExplicitBinary p)]
       | None => []
       end)
    /\ launch env match has_local_binary env with
                  | Some p => ExplicitBinary p
                  | None => BuiltIn
                  end = Raise e.
Proof.
  intros H2. unfold round.
  destruct (has_local_binary env) as [p|]; simpl; [|eauto].
  destruct (all_fail (ExplicitBinary p)) as [e He]. rewrite He. eauto.
Qed.
End AllFail.

(** C3, as the code has it.  When every launch fails, [setup_driver]
    makes exactly three rounds: the first launches the version-matched
    driver (when a local binary and its version are known) and then,
    without a pause, the default one; the second launches the built-in
    driver; the third launches with the explicit local binary when there
    is one and otherwise re-raises the last error.  Each failed round is
    followed by a pause of one second, and the exception raised at the
    end carries the text of the last error (unless that text names the
    Win32 incompatibility, which has a message of its own). *)
Theorem setup_driver_all_strategies_fail (env : Env) :
  (forall s, exists e, launch env s = Raise e) ->
  attempts_made (setup_driver env) = 3
  /\ trace (setup_driver env)
     = match version_matched_target env with
       | Some v => [Launch (VersionMatched v)]
       | None => []
       end
       ++ [Launch DefaultFetch; Sleep 1; Launch BuiltIn; Sleep 1]
       ++ match has_local_binary env with
          | Some p => [Launch (ExplicitBinary p)]
          | None => []
          end
       ++ [Sleep 1]
  /\ exists e_last,
       launch env match has_local_binary env with
                  | Some p => ExplicitBinary p
                  | None => BuiltIn
                  end = Raise e_last
       /\ result (setup_driver env) = Raise (PyException (error_msg (Some e_last)))
       /\ (Py.contains "not a valid Win32 application" (exn_str e_last) = false ->
           error_msg (Some e_last)
           = "Failed to initialize ChromeDriver: " +:+ exn_str e_last).
Proof.
  intros Hfail.
  destruct (round1_trace env Hfail None) as [e1 H1].
  destruct (Hfail BuiltIn) as [e2 H2].
  destruct (round3_trace env Hfail e2 H2) as [e3 [H3 Hlast]].
  unfold setup_driver, max_attempts. cbn [attempt_loop].
  rewrite H1.
  replace (round env 2 (Some e1)) with (@Raise Driver e2, [Launch BuiltIn])
    by (unfold round; rewrite H2; reflexivity).
  rewrite H3. cbn [result attempts_made trace].
  split; [reflexivity|]. split.
  - rewrite <- !app_assoc. reflexivity.
  - exists e3. split; [exact Hlast|]. split; [reflexivity|].
    intros Hno. unfold error_msg. cbn [str_last_error]. rewrite Hno. reflexivity.
Qed.

Lemma setup_driver_all_strategies_fail_witness :
  attempts_made (setup_driver env_posix) = 3
  /\ trace (setup_driver env_posix)
     = match version_matched_target env_posix with
       | Some v => [Launch (VersionMatched v)]
       | None => []
       end
       ++ [Launch DefaultFetch; Sleep 1; Launch BuiltIn; Sleep 1]
       ++ match has_local_binary env_posix with
          | Some p => [Launch (ExplicitBinary p)]
          | None => []
          end
       ++ [Sleep 1]
  /\ exists e_last,
       launch env_posix match has_local_binary env_posix with
                        | Some p => ExplicitBinary p
                        | None => BuiltIn
                        end = Raise e_last
       /\ result (setup_driver env_posix)
          = Raise (PyException (error_msg (Some e_last)))
       /\ (Py.contains "not a valid Win32 application" (exn_str e_last) = false ->
           error_msg (Some e_last)
           = "Failed to initialize ChromeDriver: " +:+ exn_str e_last).
Proof.
  apply (setup_driver_all_strategies_fail env_posix).
  intros s. exists (WebDriverException "session not created"). reflexivity.
Defined.

(** C3, as stated, fails: on a Windows machine with the browser
    installed the code launches four times (the first two with no pause
    between them), which is [min n 3] for no [n]. *)
Lemma setup_driver_launches_four_times :
  trace (setup_driver env_windows)
  = [ Launch (VersionMatched "120.0.0.0"); Launch DefaultFetch; Sleep 1;
      Launch BuiltIn; Sleep 1;
      Launch (ExplicitBinary "C:\Program Files\Google\Chrome\Application\chrome.exe");
      Sleep 1 ]
  /\ length (launches (trace (setup_driver env_windows))) = 4
  /\ forall availableStrategies,
       length (launches (trace (setup_driver env_windows)))
       <> Nat.min availableStrategies 3.
Proof.
  split; [reflexivity|]. split; [reflexivity|].
  intros n. change (length (launches (trace (setup_driver env_windows)))) with 4. lia.
Qed.

End SessionSpec.

(** * Properties of the Detail Extractor *)

Module DetailSpec.
Import Py PyFacts Detail.

(** ** The numeric patterns *)









(** ** Chains on a page with no match *)

Lemma chain_no_match page step : forall selectors v,
  (forall selector, exists m,
      find_element page selector = Raise (NoSuchElementException m)) ->
  chain page selectors step v = Ok v.
Proof.
  induction selectors as [|selector rest IH]; intros v Hnone; [reflexivity|].
  cbn [chain]. destruct (Hnone selector) as [m ->]. apply IH, Hnone.
Qed.

Lemma non_empty_data_blank (url : string) (coordinates : gmap string string) :
  url <> "" ->
  non_empty_data
    (<["coordinates" := VDict coordinates]>
    (<["hours" := VDict ∅]>
    (<["reviews_count" := VStr ""]>
    (<["rating" := VStr ""]>
    (<["category" := VStr ""]>
    (<["website" := VStr ""]>
    (<["phone" := VStr ""]>
    (<["address" := VStr ""]>
    (<["name" := VStr ""]>
    (<["url" := VStr url]> ∅))))))))))
  = <["coordinates" := VDict coordinates]>
    (<["hours" := VDict ∅]> (<["url" := VStr url]> ∅)).
Proof.
  intros Hurl. destruct url as [|c url]; [congruence|].
  unfold non_empty_data.
  rewrite !map_filter_insert_True by (unfold keep; simpl; apply orb_true_r).
  repeat (rewrite map_filter_insert_False by (unfold keep; simpl; discriminate);
          rewrite !delete_insert_ne by discriminate;
          rewrite delete_empty).
  rewrite map_filter_insert_True by reflexivity.
  rewrite map_filter_empty. reflexivity.
Qed.

(** ** The claims *)

(** C4, as the code has it.  [extract_business_data] returns a record
    whatever the page does.  On a page that loads and on which no
    selector matches anything, for a non-empty address, the record holds
    [url], [hours] bound to the empty mapping, and [coordinates] bound to
    what the address itself gives: the empty mapping when the address
    has no [!3d] marker. *)
Theorem extract_business_data_never_raises (page : Page) (url : string) :
  (exists business_data, extract_business_data page url = Ok business_data)
  /\ (load page = Ok tt ->
      (forall selector, exists m,
          find_element page selector = Raise (NoSuchElementException m)) ->
      hours_buttons page = Ok [] ->
      url <> "" ->
      extract_business_data page url
      = Ok (<["coordinates" := VDict (parse_coordinates url)]>
            (<["hours" := VDict ∅]> (<["url" := VStr url]> ∅)))
      /\ (contains "!3d" url = false -> parse_coordinates url = ∅)).
Proof.
  split.
  - unfold extract_business_data. destruct (extract_body page url); eauto.
  - intros Hload Hnone Hhours Hurl. split.
    + unfold extract_business_data, extract_body, extract_hours.
      rewrite Hload, Hhours. cbn [res_bind try_hours_buttons].
      rewrite !(chain_no_match page _ _ _ Hnone). cbn [res_bind].
      rewrite (non_empty_data_blank url _ Hurl). reflexivity.
    + intros Hno. unfold parse_coordinates.
      rewrite (split_absent _ _ Hno). reflexivity.
Qed.

Lemma extract_business_data_never_raises_witness :
  load blank_page = Ok tt
  /\ plain_url <> ""
  /\ extract_business_data blank_page plain_url
     = Ok (<["coordinates" := VDict (parse_coordinates plain_url)]>
           (<["hours" := VDict ∅]> (<["url" := VStr plain_url]> ∅))).
Proof.
  split; [reflexivity|]. split; [discriminate|].
  apply (extract_business_data_never_raises blank_page plain_url).
  - reflexivity.
  - intros selector. exists selector. reflexivity.
  - reflexivity.
  - discriminate.
Defined.

(** C4, as stated, fails: the coordinates come from the address, so a
    page on which nothing matches still gives a record whose
    [coordinates] is not empty. *)
Lemma blank_page_keeps_coordinates :
  extract_business_data blank_page place_url
  = Ok (<["coordinates" :=
            VDict (<["longitude" := "-74.0060"]> (<["latitude" := "40.7128"]> ∅))]>
        (<["hours" := VDict ∅]> (<["url" := VStr place_url]> ∅)))
  /\ (<["longitude" := "-74.0060"]> (<["latitude" := "40.7128"]> ∅) : gmap string string)
     !! "latitude" = Some "40.7128"
  /\ (∅ : gmap string string) !! "latitude" = None.
Proof. split; [vm_compute; reflexivity|]. split; reflexivity. Qed.




End DetailSpec.

(** * Properties of Email Discovery *)

Module EmailSpec.
Import Py PyFacts Email.

(** ** The order of the sort keys *)

#[local] Instance key_le_total : Total key_le.
Proof.
  intros a b. unfold key_le.
  destruct (lt_eq_lt_dec (rank a) (rank b)) as [[Hlt|Heq]|Hgt]; [auto| |auto].
  destruct (String.le_total a b); [left|right]; right; auto.
Qed.

#[local] Instance key_le_trans : Transitive key_le.
Proof.
  intros a b c [Hab|[Hab Hsab]] [Hbc|[Hbc Hsbc]]; unfold key_le.
  - left. lia.
  - left. lia.
  - left. lia.
  - right. split; [lia|]. etrans; eauto.
Qed.

#[local] Instance key_le_antisymm : AntiSymm (=) key_le.
Proof.
  intros a b [Hab|[Hab Hsab]] [Hba|[Hba Hsba]]; try lia.
  apply (anti_symm String.le); assumption.
Qed.

Lemma sorted_emails_sorted emails : StronglySorted key_le (sorted_emails emails).
Proof. apply StronglySorted_merge_sort; apply _. Qed.

Lemma sorted_emails_perm emails : sorted_emails emails ≡ₚ emails.
Proof. apply merge_sort_Permutation. Qed.

(** Whatever the algorithm, the sorted list is this one. *)
Lemma sorted_emails_unique emails l :
  Sorted key_le l -> l ≡ₚ emails -> l = sorted_emails emails.
Proof.
  intros Hs Hp. apply (Sorted_unique key_le); [exact Hs| |].
  - apply StronglySorted_Sorted, sorted_emails_sorted.
  - rewrite Hp. symmetry. apply sorted_emails_perm.
Qed.

Lemma sorted_emails_order emails l1 a l2 b l3 :
  sorted_emails emails = l1 ++ a :: l2 ++ b :: l3 -> key_le a b.
Proof.
  intros Heq. pose proof (sorted_emails_sorted emails) as Hs. rewrite Heq in Hs.
  apply StronglySorted_app_1_r in Hs. apply StronglySorted_inv in Hs as [_ Hall].
  rewrite Forall_app, Forall_cons in Hall. tauto.
Qed.

Lemma key_le_priority a b :
  key_le a b ->
  (has_priority b = true -> has_priority a = true)
  /\ (has_priority a = has_priority b -> String.le a b).
Proof.
  unfold key_le, rank.
  destruct (has_priority a), (has_priority b); intros [H|[H Hs]];
    split; auto; try lia; discriminate.
Qed.

Lemma sorted_emails_nil_inv emails : sorted_emails emails = [] -> emails = [].
Proof.
  intros H. apply Permutation_nil. rewrite <- H. apply sorted_emails_perm.
Qed.

(** ** What [enrich_business_data_with_emails] writes *)

Lemma enrich_emails web (business_data : record) emails :
  discover web business_data = Ok emails ->
  enrich_business_data_with_emails web business_data
  = <["primary_email" := match sorted_emails emails with
                         | first :: _ => VStr first
                         | [] => VNone
                         end]>
      (<["emails" := VList (sorted_emails emails)]> business_data).
Proof.
  intros H. unfold enrich_business_data_with_emails, enrich_body. rewrite H.
  destruct emails; reflexivity.
Qed.

Lemma enrich_raise web (business_data : record) e :
  discover web business_data = Raise e ->
  enrich_business_data_with_emails web business_data
  = <["primary_email" := VNone]> (<["emails" := VList []]> business_data).
Proof.
  intros H. unfold enrich_business_data_with_emails, enrich_body. rewrite H.
  reflexivity.
Qed.

(** ** The crawl *)

Lemma crawl_pages_log web domain n : forall st,
  exists rest, fetched (crawl_pages web domain n st) = fetched st ++ rest.
Proof.
  induction n as [|n IH]; intros st; cbn [crawl_pages].
  - exists []. rewrite app_nil_r. reflexivity.
  - destruct (pop_unvisited (visited_urls st) (urls_to_visit st)) as [[u q]|].
    2: { exists []. rewrite app_nil_r. reflexivity. }
    assert (Hstep : forall st', fetched st' = fetched st ++ [u] ->
              exists rest, fetched (crawl_pages web domain n st') = fetched st ++ rest).
    { intros st' Hst'. destruct (IH st') as [rest Hrest].
      exists (u :: rest). rewrite Hrest, Hst', <- app_assoc. reflexivity. }
    destruct (web u) as [response|[]];
      try (exists [u]; reflexivity); try (apply Hstep; reflexivity).
    destruct (S (page_count st) =? 1); [|apply Hstep; reflexivity].
    destruct (scan_links _ _ _ _ _) as [q' []];
      [apply Hstep; reflexivity | exists [u]; reflexivity].
Qed.

(** The crawl goes on from a state whose log is known: the rest of the
    log follows it. *)
Ltac log_continues :=
  match goal with
  | |- exists rest, fetched (crawl_pages ?w ?d ?n ?st) = _ =>
      destruct (crawl_pages_log w d n st) as [rest ->]; exists rest; reflexivity
  end.





(** ** Every address that reaches the sort is in lower case *)

Definition all_lowercase (emails : gset string) : Prop :=
  forall e, e ∈ emails -> lowercase e = true.

Lemma extract_domain_lowercase url domain :
  extract_domain_from_url url = Some domain -> lowercase domain = true.
Proof.
  unfold extract_domain_from_url. destruct (nonempty url); [|discriminate].
  intros H. injection H as <-.
  apply lowercase_first_of, lowercase_split, lowercase_remove_prefix.
  unfold remove_scheme.
  destruct (startswith _ "https://"); [apply lowercase_drop, lowercase_lower|].
  destruct (startswith _ "http://"); [apply lowercase_drop, lowercase_lower|].
  apply lowercase_lower.
Qed.

Lemma find_emails_lowercase html : all_lowercase (find_emails_on_page html).
Proof.
  unfold find_emails_on_page.
  assert (H : forall found acc, all_lowercase acc ->
            all_lowercase
              (foldl (fun emails email =>
                        if existsb (endswith (lower email)) file_suffixes
                        then emails else {[ lower email ]} ∪ emails) acc found)).
  { induction found as [|x found IH]; intros acc Hacc; cbn [foldl]; [exact Hacc|].
    apply IH. destruct (existsb _ _); [exact Hacc|].
    intros e He. apply elem_of_union in He as [He|He]; [|auto].
    apply elem_of_singleton in He. subst e. apply lowercase_lower. }
  apply H. intros e He. apply elem_of_empty in He. destruct He.
Qed.

Lemma crawl_pages_lowercase web domain n : forall st,
  all_lowercase (all_emails st) ->
  all_lowercase (all_emails (crawl_pages web domain n st)).
Proof.
  induction n as [|n IH]; intros st Hst; cbn [crawl_pages]; [exact Hst|].
  destruct (pop_unvisited _ _) as [[u q]|]; [|exact Hst].
  assert (Hnew : forall html, all_lowercase (all_emails st ∪ find_emails_on_page html)).
  { intros html e He. apply elem_of_union in He as [He|He]; [auto|].
    eapply find_emails_lowercase, He. }
  destruct (web u) as [response|[]]; try exact Hst; try (apply IH; exact Hst).
  destruct (S (page_count st) =? 1); [|apply IH, Hnew].
  destruct (scan_links _ _ _ _ _) as [q' []]; [apply IH, Hnew|apply Hnew].
Qed.

Lemma scrape_lowercase web url n :
  Forall (fun e => lowercase e = true) (scrape_website_for_emails web url n).
Proof.
  apply Forall_forall. intros e He. unfold scrape_website_for_emails in He.
  apply elem_of_elements in He.
  revert e He. apply crawl_pages_lowercase.
  intros e He. apply elem_of_empty in He. destruct He.
Qed.

Lemma common_prefixes_lowercase domain :
  lowercase domain = true ->
  Forall (fun e => lowercase e = true)
         (map (fun prefix => prefix +:+ "@" +:+ domain) common_prefixes).
Proof.
  intros Hd. unfold common_prefixes. cbn [map].
  repeat constructor; rewrite !lowercase_app, Hd; reflexivity.
Qed.

Lemma generate_lowercase domain business_name generated :
  lowercase domain = true ->
  generate_common_emails domain business_name VNone = Ok generated ->
  Forall (fun e => lowercase e = true) generated.
Proof.
  intros Hd. unfold generate_common_emails.
  destruct (negb (nonempty domain)).
  { intros H. injection H as <-. constructor. }
  pose proof (common_prefixes_lowercase domain Hd) as Hp.
  destruct (truthy business_name).
  - destruct business_name as [|name| | |]; cbn [as_str res_bind truthy];
      try discriminate.
    destruct (nonempty (filter_chars is_alnum (lower name))).
    + intros H. injection H as <-.
      assert (Hc : lowercase (filter_chars is_alnum (lower name)) = true)
        by apply lowercase_filter, lowercase_lower.
      assert (Hl : lowercase (last_of (split "." domain)) = true)
        by apply lowercase_last_of, lowercase_split, Hd.
      repeat constructor; rewrite !lowercase_app, ?Hc, ?Hd, ?Hl; reflexivity.
    + intros H. injection H as <-. exact Hp.
  - cbn [res_bind truthy]. intros H. injection H as <-. exact Hp.
Qed.

Lemma discover_lowercase web (business_data : record) emails :
  discover web business_data = Ok emails ->
  Forall (fun e => lowercase e = true) emails.
Proof.
  unfold discover. destruct (truthy _).
  2: { intros H. injection H as <-. constructor. }
  destruct (default VNone (business_data !! "website")) as [|url| | |];
    cbn [as_str res_bind]; try discriminate.
  pose proof (scrape_lowercase web url default_max_pages) as Hs.
  destruct (extract_domain_from_url url) as [domain|] eqn:Hdom.
  2: { intros H. injection H as <-. exact Hs. }
  destruct (nonempty domain).
  2: { intros H. injection H as <-. exact Hs. }
  destruct (generate_common_emails domain _ VNone) as [generated|e] eqn:Hgen;
    cbn [res_bind]; [|discriminate].
  pose proof (generate_lowercase _ _ _ (extract_domain_lowercase _ _ Hdom) Hgen) as Hg.
  destruct (scrape_website_for_emails web url default_max_pages), generated;
    intros H; injection H as <-; assumption.
Qed.

(** For an address in lower case, the prefix the sort key looks at is
    the part before the first [@], as it stands. *)
Lemma email_prefix_lowercase e :
  lowercase e = true -> email_prefix e = first_of (split "@" e).
Proof.
  intros He. unfold email_prefix.
  apply lower_lowercase, lowercase_first_of, lowercase_split, He.
Qed.

Lemma has_priority_role e :
  lowercase e = true ->
  (has_priority e = true <-> In (local_part e) role_prefixes).
Proof.
  intros He. unfold has_priority, local_part. rewrite (email_prefix_lowercase e He).
  unfold priority_prefixes, role_prefixes. cbn [existsb In].
  rewrite !orb_true_iff, !String.eqb_eq. intuition (auto; congruence).
Qed.

(** ** The claims *)

(** C2.  When enrichment has found the addresses [emails], the record's
    [emails] is a rearrangement of them in which every address whose
    local part is one of contact, info, hello, support, admin, sales
    stands before every other address, and addresses of the same class
    stand in lexicographic order; [primary_email] is the first of them,
    or [None] when there is none.  For the three addresses of the
    example the order is contact, info, zeta. *)
Theorem enrichment_sorts_emails
    (web : Web) (business_data : record) (emails : list string) :
  discover web business_data = Ok emails ->
  exists sorted,
    enrich_business_data_with_emails web business_data !! "emails"
    = Some (VList sorted)
    /\ enrich_business_data_with_emails web business_data !! "primary_email"
       = Some (match sorted with
               | first :: _ => VStr first
               | [] => VNone
               end)
    /\ sorted ≡ₚ emails
    /\ (forall e, In e sorted ->
          (has_priority e = true <-> In (local_part e) role_prefixes))
    /\ (forall l1 a l2 b l3, sorted = l1 ++ a :: l2 ++ b :: l3 ->
          (has_priority b = true -> has_priority a = true)
          /\ (has_priority a = has_priority b -> String.le a b))
    /\ sorted_emails ["zeta@x.com"; "info@x.com"; "contact@x.com"]
       = ["contact@x.com"; "info@x.com"; "zeta@x.com"]
    /\ enrich_business_data_with_emails web_three x_com !! "primary_email"
       = Some (VStr "contact@x.com").
Proof.
  intros Hd. exists (sorted_emails emails).
  rewrite (enrich_emails _ _ _ Hd).
  split; [rewrite lookup_insert_ne by discriminate; apply lookup_insert_eq|].
  split; [apply lookup_insert_eq|].
  split; [apply sorted_emails_perm|].
  split.
  { intros e He. apply has_priority_role.
    pose proof (discover_lowercase _ _ _ Hd) as Hl.
    rewrite Forall_forall in Hl. apply Hl.
    rewrite <- (sorted_emails_perm emails). apply list_elem_of_In, He. }
  split.
  { intros l1 a l2 b l3 Heq. apply key_le_priority.
    eapply sorted_emails_order, Heq. }
  split; vm_compute; reflexivity.
Qed.

Lemma enrichment_sorts_emails_witness :
  exists sorted,
    enrich_business_data_with_emails web_three x_com !! "emails"
    = Some (VList sorted)
    /\ enrich_business_data_with_emails web_three x_com !! "primary_email"
       = Some (match sorted with
               | first :: _ => VStr first
               | [] => VNone
               end)
    /\ sorted ≡ₚ ["contact@x.com"; "info@x.com"; "zeta@x.com"]
    /\ (forall e, In e sorted ->
          (has_priority e = true <-> In (local_part e) role_prefixes))
    /\ (forall l1 a l2 b l3, sorted = l1 ++ a :: l2 ++ b :: l3 ->
          (has_priority b = true -> has_priority a = true)
          /\ (has_priority a = has_priority b -> String.le a b))
    /\ sorted_emails ["zeta@x.com"; "info@x.com"; "contact@x.com"]
       = ["contact@x.com"; "info@x.com"; "zeta@x.com"]
    /\ enrich_business_data_with_emails web_three x_com !! "primary_email"
       = Some (VStr "contact@x.com").
Proof.
  apply (enrichment_sorts_emails web_three x_com
           ["contact@x.com"; "info@x.com"; "zeta@x.com"]).
  vm_compute. reflexivity.
Defined.

(** C5 fails on the code.  The addresses found on the site are
    collected in a set and so are distinct; the generated ones are not:
    for a business called Acme at acme.com, with nothing found on the
    site, [info@acme.com] is generated from the role prefixes and again
    from the business name, and the record lists it twice. *)
Theorem generated_emails_repeat_an_address :
  (forall web url max_pages, NoDup (scrape_website_for_emails web url max_pages))
  /\ exists emails,
       enrich_business_data_with_emails web_down acme !! "emails"
       = Some (VList emails)
       /\ count_occ string_dec emails "info@acme.com" = 2
       /\ ~ NoDup emails.
Proof.
  split; [intros; apply NoDup_elements|].
  eexists. split; [vm_compute; reflexivity|]. split; [vm_compute; reflexivity|].
  intros H. apply NoDup_ListNoDup in H.
  rewrite (List.NoDup_count_occ string_dec) in H.
  specialize (H "info@acme.com"). vm_compute in H. lia.
Qed.

(** C6, as the code has it.  When enrichment finds no address and
    generates none, the record it returns has an [emails] entry, bound
    to the empty list, and a [primary_email] entry, bound to [None]. *)
Theorem empty_emails_entry_is_written (web : Web) (business_data : record) :
  discover web business_data = Ok [] ->
  enrich_business_data_with_emails web business_data !! "emails"
  = Some (VList [])
  /\ enrich_business_data_with_emails web business_data !! "primary_email"
     = Some VNone.
Proof.
  intros Hd. rewrite (enrich_emails _ _ _ Hd).
  split; [rewrite lookup_insert_ne by discriminate|]; apply lookup_insert_eq.
Qed.

Lemma empty_emails_entry_is_written_witness :
  discover web_down no_website = Ok []
  /\ enrich_business_data_with_emails web_down no_website !! "emails"
     = Some (VList [])
  /\ enrich_business_data_with_emails web_down no_website !! "primary_email"
     = Some VNone.
Proof.
  split; [reflexivity|].
  apply (empty_emails_entry_is_written web_down no_website). reflexivity.
Defined.

(** C6, as stated, fails: after enrichment a record with no address
    still carries the key [emails]. *)
Lemma empty_emails_entry_is_present :
  enrich_business_data_with_emails web_down no_website
  = <["primary_email" := VNone]> (<["emails" := VList []]> no_website)
  /\ enrich_business_data_with_emails web_down no_website !! "emails"
     = Some (VList []).
Proof. split; vm_compute; reflexivity. Qed.

(** C7 fails on the code.  The queue is built from the address as it
    was passed; the scheme is added afterwards, to a variable the queue
    does not read.  So the first fetch is at the address as given: for
    [example.com] that is the only fetch, it fails, and nothing is
    found, while the same site given with its scheme yields its
    address. *)
Theorem first_fetch_is_at_the_address_as_given :
  (forall web url max_pages,
      exists rest, fetched (crawl web url (S max_pages)) = url :: rest)
  /\ with_scheme "example.com" = "https://example.com"
  /\ fetched (crawl web_two_links "example.com" 3) = ["example.com"]
  /\ scrape_website_for_emails web_two_links "example.com" 3 = []
  /\ scrape_website_for_emails web_two_links "https://example.com" 3
     = ["info@example.com"].
Proof.
  split.
  { intros web url n. unfold crawl. cbn [crawl_pages pop_unvisited urls_to_visit visited_urls].
    rewrite bool_decide_eq_false_2 by (apply not_elem_of_empty).
    cbn [fetched app page_count all_emails].
    destruct (web url) as [response|[]]; try (exists []; reflexivity);
      try log_continues.
    cbn [Nat.eqb].
    destruct (scan_links _ _ _ _ _) as [q' []]; [|exists []; reflexivity].
    log_continues. }
  repeat split; vm_compute; reflexivity.
Qed.




(** C10.  The record enrichment returns always has the keys [emails]
    and [primary_email], and every other key is bound as it was in the
    input.  When a step of the enrichment raises, nothing has been
    written to the record by then, and the record returned is the input
    with [emails] bound to the empty list and [primary_email] to
    [None]. *)
Theorem enrichment_degrades_atomically (web : Web) (business_data : record) :
  is_Some (enrich_business_data_with_emails web business_data !! "emails")
  /\ is_Some (enrich_business_data_with_emails web business_data !! "primary_email")
  /\ (forall key, key <> "emails" -> key <> "primary_email" ->
        enrich_business_data_with_emails web business_data !! key
        = business_data !! key)
  /\ (forall e state,
        enrich_body web business_data = (Raise e, state) ->
        state = business_data
        /\ enrich_business_data_with_emails web business_data
           = <["primary_email" := VNone]> (<["emails" := VList []]> business_data)).
Proof.
  destruct (discover web business_data) as [emails|e] eqn:Hd.
  - rewrite (enrich_emails _ _ _ Hd).
    split; [rewrite lookup_insert_ne by discriminate; rewrite lookup_insert_eq; eauto|].
    split; [rewrite lookup_insert_eq; eauto|].
    split.
    + intros key H1 H2. rewrite !lookup_insert_ne by congruence. reflexivity.
    + intros e state. unfold enrich_body. rewrite Hd.
      destruct emails; discriminate.
  - rewrite (enrich_raise _ _ _ Hd).
    split; [rewrite lookup_insert_ne by discriminate; rewrite lookup_insert_eq; eauto|].
    split; [rewrite lookup_insert_eq; eauto|].
    split.
    + intros key H1 H2. rewrite !lookup_insert_ne by congruence. reflexivity.
    + intros e' state. unfold enrich_body. rewrite Hd.
      intros H. injection H as _ <-. split; reflexivity.
Qed.

Lemma enrichment_degrades_atomically_witness :
  enrich_body web_down odd_website = (Raise (AttributeError "startswith"), odd_website)
  /\ enrich_business_data_with_emails web_down odd_website
     = <["primary_email" := VNone]> (<["emails" := VList []]> odd_website).
Proof.
  split; [reflexivity|].
  apply (enrichment_degrades_atomically web_down odd_website)
    with (e := AttributeError "startswith") (state := odd_website).
  reflexivity.
Defined.

End EmailSpec.

(** * Result Pager: why the loop stops *)

Module PagerStop.
Import Pager PagerSpec.

(** X1.  When [scroll_results] returns a count without a browser call
    having failed, the loop stopped for one of its three reasons: the
    count reached the target, ten passes were made, or the last count did
    not grow (it is zero from the start, or no more than the one before). *)
Theorem scroll_results_stops_for_a_reason
    (fuel : nat) (b : Browser) (max_results : nat) :
  max_scroll_attempts <= fuel ->
  exists out,
    scroll_results fuel b max_results = Some out
    /\ (failed out = false ->
        max_results <= returned out
        \/ iterations out = 10
        \/ (counts out = [returned out] /\ returned out = 0)
        \/ exists init prev,
             counts out = init ++ [prev; returned out] /\ returned out <= prev).
Proof.
  intros Hfuel. unfold scroll_results.
  destruct (do_ locate b; find_business_elements (dom b 0) business_selectors [])
    as [elems|e].
  - fold (first_state elems).
    assert (Hinv : loop_inv (first_state elems)).
    { split; [simpl; unfold max_scroll_attempts; lia|].
      exists []. simpl. repeat split; auto. }
    destruct (scroll_loop_ok b max_results fuel (first_state elems) Hinv)
      as (out & Hout & _); [unfold max_scroll_attempts in *; simpl; lia|].
    exists out. split; [exact Hout|]. intros Hok.
    apply (scroll_loop_reason b max_results fuel (first_state elems) out);
      [exact Hinv|intros _; reflexivity|exact Hout|exact Hok].
  - eexists. split; [reflexivity|]. discriminate.
Qed.

Lemma scroll_results_stops_for_a_reason_witness :
  exists out,
    scroll_results 10 shrinking 10 = Some out
    /\ (failed out = false ->
        10 <= returned out
        \/ iterations out = 10
        \/ (counts out = [returned out] /\ returned out = 0)
        \/ exists init prev,
             counts out = init ++ [prev; returned out] /\ returned out <= prev).
Proof.
  apply (scroll_results_stops_for_a_reason 10 shrinking 10).
  unfold max_scroll_attempts. lia.
Defined.

End PagerStop.

(** * Session Manager: the first launch that succeeds *)

Module SessionFirst.
Import Session.

Definition fails (env : Env) (s : Strategy) : Prop :=
  exists e, launch env s = Raise e.

(** A run of [setup_driver] is in order when: it ends with a session only
    if the last launch gave that session and every launch before it
    failed; it ends with an exception only if every launch failed; and
    each failed round, and no other, is followed by a pause of a second. *)
Definition in_order (env : Env) (r : Setup) : Prop :=
  attempts_made r <= max_attempts
  /\ match result r with
     | Ok d =>
         (exists before s,
             launches (trace r) = before ++ [s]
             /\ launch env s = Ok d /\ Forall (fails env) before)
         /\ sleeps (trace r) = repeat 1 (attempts_made r - 1)
     | Raise _ =>
         Forall (fails env) (launches (trace r))
         /\ sleeps (trace r) = repeat 1 (attempts_made r)
         /\ attempts_made r = max_attempts
     end.

Ltac launch_case env s :=
  let d := fresh "d" in
  let e := fresh "e" in
  let H := fresh "Hlaunch" in
  destruct (launch env s) as [d|e] eqn:H.

Ltac close_order :=
  unfold in_order; cbn;
  repeat match goal with
         | |- _ /\ _ => split
         | |- _ <= _ => unfold max_attempts; lia
         | |- Forall _ _ => repeat constructor
         | |- fails _ _ => eexists; eassumption
         | |- _ = _ => reflexivity
         end.

(** X2.  [setup_driver] makes at most three rounds.  When it returns a
    session, that session is the one of the last launch it made, every
    launch before it failed, and a pause of one second followed each
    failed round; when it raises, every launch it made failed. *)
Theorem setup_driver_returns_first_success (env : Env) :
  attempts_made (setup_driver env) <= 3
  /\ match result (setup_driver env) with
     | Ok d =>
         (exists before s,
             launches (trace (setup_driver env)) = before ++ [s]
             /\ launch env s = Ok d
             /\ Forall (fun s' => exists e, launch env s' = Raise e) before)
         /\ sleeps (trace (setup_driver env))
            = repeat 1 (attempts_made (setup_driver env) - 1)
     | Raise _ =>
         Forall (fun s => exists e, launch env s = Raise e)
                (launches (trace (setup_driver env)))
         /\ sleeps (trace (setup_driver env))
            = repeat 1 (attempts_made (setup_driver env))
         /\ attempts_made (setup_driver env) = 3
     end.
Proof.
  change (in_order env (setup_driver env)).
  unfold setup_driver, max_attempts. cbn [attempt_loop round].
  destruct (version_matched_target env) as [v|].
  - launch_case env (VersionMatched v).
    { close_order. exists [], (VersionMatched v). close_order. assumption. }
    launch_case env DefaultFetch; cbn [fst snd].
    { close_order. exists [VersionMatched v], DefaultFetch. close_order. assumption. }
    launch_case env BuiltIn.
    { close_order. exists [VersionMatched v; DefaultFetch], BuiltIn.
      close_order. assumption. }
    destruct (has_local_binary env) as [p|]; [|close_order].
    launch_case env (ExplicitBinary p); [|close_order].
    close_order. exists [VersionMatched v; DefaultFetch; BuiltIn], (ExplicitBinary p).
    close_order. assumption.
  - launch_case env DefaultFetch.
    { close_order. exists [], DefaultFetch. close_order. assumption. }
    launch_case env BuiltIn.
    { close_order. exists [DefaultFetch], BuiltIn. close_order. assumption. }
    destruct (has_local_binary env) as [p|]; [|close_order].
    launch_case env (ExplicitBinary p); [|close_order].
    close_order. exists [DefaultFetch; BuiltIn], (ExplicitBinary p).
    close_order. assumption.
Qed.

End SessionFirst.

(** * Facts about [split] *)

Module SplitFacts.
Import Py PyFacts.

(** [sep] begins nowhere inside [a] when [a] is followed by [sep]. *)
Fixpoint absent_before (sep a : string) : bool :=
  match a with
  | EmptyString => true
  | String _ a' => negb (String.prefix sep (a +:+ sep)) && absent_before sep a'
  end.

(** The piece [split] gives first. *)
Definition first_piece (sep s : string) : string := fst (split_go sep 0 s).

(** Empty, or beginning with the character [c]. *)
Definition headed_or_empty (c : ascii) (s : string) : Prop :=
  s = "" \/ exists r, s = String c r.

Lemma length_sapp s t : String.length (s +:+ t) = String.length s + String.length t.
Proof. induction s as [|c s IH]; [reflexivity|]. rewrite sapp_cons. simpl. lia. Qed.

Lemma prefix_sapp_long p : forall s t,
  String.length p <= String.length s ->
  String.prefix p (s +:+ t) = String.prefix p s.
Proof.
  induction p as [|a p IH]; intros s t Hlen.
  - destruct (s +:+ t), s; reflexivity.
  - destruct s as [|b s]; [simpl in Hlen; lia|].
    rewrite sapp_cons. simpl. destruct (ascii_dec a b); [|reflexivity].
    apply IH. simpl in Hlen. lia.
Qed.

Lemma prefix_sapp_self p t : String.prefix p (p +:+ t) = true.
Proof.
  induction p as [|a p IH]; [destruct t; reflexivity|].
  rewrite sapp_cons. simpl. destruct (ascii_dec a a); [exact IH|congruence].
Qed.

Lemma split_go_skip sep : forall s t,
  split_go sep (String.length s) (s +:+ t) = split_go sep 0 t.
Proof.
  induction s as [|c s IH]; intros t; [destruct t; reflexivity|].
  rewrite sapp_cons. cbn [String.length split_go]. apply IH.
Qed.

Lemma split_go_at c sep' t :
  split_go (String c sep') 0 (String c sep' +:+ t)
  = (EmptyString,
     let (p, ps) := split_go (String c sep') 0 t in p :: ps).
Proof.
  rewrite sapp_cons. cbn [split_go].
  rewrite <- sapp_cons, prefix_sapp_self.
  cbn [String.length]. rewrite Nat.sub_1_r. cbn [Nat.pred].
  rewrite split_go_skip. reflexivity.
Qed.

Lemma split_go_before sep : forall a t,
  absent_before sep a = true ->
  split_go sep 0 (a +:+ sep +:+ t)
  = let (p, ps) := split_go sep 0 (sep +:+ t) in (a +:+ p, ps).
Proof.
  induction a as [|c a IH]; intros t Ha.
  - rewrite sapp_nil_l. destruct (split_go sep 0 (sep +:+ t)). reflexivity.
  - cbn [absent_before] in Ha. apply andb_true_iff in Ha as [Hc Ha].
    apply negb_true_iff in Hc.
    rewrite sapp_cons. cbn [split_go]. rewrite <- sapp_cons.
    rewrite <- sapp_assoc, prefix_sapp_long, Hc
      by (rewrite length_sapp; lia).
    rewrite (IH t Ha).
    destruct (split_go sep 0 (sep +:+ t)). reflexivity.
Qed.

(** The string up to the first separator is the first piece, and the
    rest is split in turn. *)
Lemma split_first c sep' a t :
  absent_before (String c sep') a = true ->
  split (String c sep') (a +:+ String c sep' +:+ t)
  = a :: split (String c sep') t.
Proof.
  intros Ha. unfold split. rewrite (split_go_before _ _ _ Ha), split_go_at.
  destruct (split_go (String c sep') 0 t). rewrite sapp_nil_r. reflexivity.
Qed.

Lemma split_go_free c sep' : forall a t,
  no_char (Ascii.eqb c) a = true ->
  split_go (String c sep') 0 (a +:+ t)
  = let (p, ps) := split_go (String c sep') 0 t in (a +:+ p, ps).
Proof.
  unfold no_char.
  induction a as [|b a IH]; intros t Ha.
  - rewrite sapp_nil_l. destruct (split_go _ 0 t). reflexivity.
  - simpl in Ha. apply andb_true_iff in Ha as [Hb Ha]. apply negb_true_iff in Hb.
    rewrite sapp_cons. cbn [split_go String.prefix].
    destruct (ascii_dec c b) as [->|Hne]; [rewrite Ascii.eqb_refl in Hb; discriminate|].
    rewrite (IH t Ha). destruct (split_go _ 0 t). reflexivity.
Qed.

Lemma first_piece_free c sep' a t :
  no_char (Ascii.eqb c) a = true ->
  first_piece (String c sep') (a +:+ t) = a +:+ first_piece (String c sep') t.
Proof.
  intros Ha. unfold first_piece. rewrite (split_go_free _ _ _ _ Ha).
  destruct (split_go _ 0 t). reflexivity.
Qed.

Lemma first_piece_headed c sep' q :
  headed_or_empty c q -> headed_or_empty c (first_piece (String c sep') q).
Proof.
  unfold first_piece. intros [->|[r ->]]; [left; reflexivity|].
  cbn [split_go]. destruct (String.prefix _ _); [left; reflexivity|].
  destruct (split_go _ 0 r). right. eexists. reflexivity.
Qed.

Lemma first_piece_stops c sep' a q :
  no_char (Ascii.eqb c) a = true -> headed_or_empty c q ->
  sep' = EmptyString ->
  first_piece (String c sep') (a +:+ q) = a.
Proof.
  intros Ha Hq ->. rewrite (first_piece_free _ _ _ _ Ha).
  destruct Hq as [->|[r ->]]; unfold first_piece.
  - apply sapp_nil_r.
  - cbn [split_go String.prefix]. destruct (ascii_dec c c); [|congruence].
    destruct r; apply sapp_nil_r.
Qed.

Lemma split_hd sep s : split sep s = first_piece sep s :: snd (split_go sep 0 s).
Proof. unfold split, first_piece. destruct (split_go sep 0 s). reflexivity. Qed.

Lemma first_of_split sep s : first_of (split sep s) = first_piece sep s.
Proof. rewrite split_hd. reflexivity. Qed.

Lemma absent_before_free c sep' a :
  no_char (Ascii.eqb c) a = true -> absent_before (String c sep') a = true.
Proof.
  unfold no_char. induction a as [|b a IH]; [reflexivity|]. simpl.
  intros H. apply andb_true_iff in H as [Hb Ha]. apply negb_true_iff in Hb.
  rewrite (IH Ha), andb_true_r.
  destruct (ascii_dec c b) as [->|Hne]; [rewrite Ascii.eqb_refl in Hb; discriminate|].
  reflexivity.
Qed.

End SplitFacts.

(** * Detail Extractor: chains, hours, coordinates, the shape of a record *)

Module DetailMore.
Import Py PyFacts SplitFacts Detail.

(** ** Selector chains *)

(** The selector finds nothing, or an element whose text is empty. *)
Definition passes (page : Page) (selector : string) : Prop :=
  (exists m, find_element page selector = Raise (NoSuchElementException m))
  \/ (exists el, find_element page selector = Ok el /\ text el = "").

(** X3.  A chain that reads an element's text (name, address, category)
    gives the text of the first selector, in the declared order, that
    finds an element with a non-empty text: the selectors before it that
    find nothing or an empty text are passed over, and the ones after it
    are not tried. *)
Theorem text_chain_takes_first_match
    (page : Page) (before after : list string) (selector : string)
    (el : Element) (v : pyval) :
  Forall (passes page) before ->
  find_element page selector = Ok el ->
  text el <> "" ->
  chain page (before ++ selector :: after) text_step v = Ok (VStr (text el)).
Proof.
  intros Hbefore Hfind Htext. revert v.
  induction Hbefore as [|s before Hs _ IH]; intros v; cbn [app chain].
  - rewrite Hfind. unfold text_step. destruct (text el); [congruence|reflexivity].
  - destruct Hs as [[m ->]|[el' [-> Hempty]]]; [apply IH|].
    unfold text_step. rewrite Hempty. cbn [nonempty]. apply IH.
Qed.

Lemma text_chain_takes_first_match_witness :
  chain (rating_page "4.5")
    (["span.section-star-display"] ++ "div.fontDisplayLarge" :: ["h1"])
    text_step (VStr "")
  = Ok (VStr "4.5").
Proof.
  apply (text_chain_takes_first_match (rating_page "4.5")
           ["span.section-star-display"] ["h1"] "div.fontDisplayLarge"
           {| text := "4.5"; get_attribute := fun _ => None |} (VStr "")).
  - constructor; [|constructor]. left. eexists. reflexivity.
  - reflexivity.
  - discriminate.
Defined.

(** ** Opening hours *)

Lemma record_days_keys text (hours : gmap string string) k :
  is_Some (record_days text hours !! k) -> is_Some (hours !! k) \/ In k days.
Proof.
  unfold record_days.
  cut (forall ds (h : gmap string string), (forall d, In d ds -> In d days) ->
         is_Some (foldl (fun (h : gmap string string) day =>
                           if contains day text
                           then <[day := strip (replace day "" text)]> h
                           else h) h ds !! k) ->
         is_Some (h !! k) \/ In k days).
  { intros H. apply H. auto. }
  induction ds as [|d ds IH]; intros h Hds; cbn [foldl]; [auto|].
  intros Hk. destruct (IH _ (fun x Hx => Hds x (or_intror Hx)) Hk) as [Hs|Hin]; [|auto].
  destruct (contains d text); [|auto].
  destruct (decide (d = k)) as [<-|Hne].
  - right. apply Hds. left. reflexivity.
  - rewrite lookup_insert_ne in Hs by exact Hne. auto.
Qed.

Lemma scan_hours_keys els : forall (hours : gmap string string) k,
  is_Some (scan_hours els hours !! k) -> is_Some (hours !! k) \/ In k days.
Proof.
  unfold scan_hours.
  induction els as [|el els IH]; intros hours k; cbn [foldl]; [auto|].
  intros Hk. destruct (IH _ _ Hk) as [Hs|Hin]; [|auto].
  apply record_days_keys in Hs. exact Hs.
Qed.

Lemma try_hours_buttons_keys buttons : forall (hours : gmap string string) k,
  is_Some (try_hours_buttons buttons hours !! k) ->
  is_Some (hours !! k) \/ In k days.
Proof.
  induction buttons as [|b buttons IH]; intros hours k; cbn [try_hours_buttons]; [auto|].
  destruct (click_and_find b) as [els|e]; [|apply IH].
  assert (Hscan : is_Some (scan_hours els hours !! k) ->
                  is_Some (hours !! k) \/ In k days) by apply scan_hours_keys.
  assert (Hrest : is_Some (try_hours_buttons buttons (scan_hours els hours) !! k) ->
                  is_Some (hours !! k) \/ In k days).
  { intros H. destruct (IH _ _ H) as [Hs|Hin]; auto. }
  destruct (close b); [|exact Hrest].
  destruct (bool_decide (scan_hours els hours = ∅)); [exact Hrest|exact Hscan].
Qed.

(** X4.  Whatever the page shows, the keys of the [hours] mapping are
    weekday names, in lower case. *)
Theorem hours_keys_are_weekdays (page : Page) (k : string) :
  is_Some (extract_hours page !! k) ->
  In k [ "monday"; "tuesday"; "wednesday"; "thursday"; "friday"; "saturday";
         "sunday" ].
Proof.
  unfold extract_hours. destruct (hours_buttons page) as [buttons|e].
  - intros H. destruct (try_hours_buttons_keys _ _ _ H) as [Hs|Hin]; [|exact Hin].
    rewrite lookup_empty in Hs. destruct Hs as [? Hs]. discriminate.
  - rewrite lookup_empty. intros [? H]. discriminate.
Qed.

(** A page with one hours button, which discloses one row. *)
Definition monday_page : Page :=
  {| load := Ok tt;
     wait_presence := fun s => Ok tt;
     find_element := no_such_element;
     hours_buttons :=
       Ok [ {| click_and_find :=
                 Ok [ {| text := "Monday 9 AM-5 PM";
                         get_attribute := fun _ => None |} ];
               close := Ok tt |} ] |}.

Lemma hours_keys_are_weekdays_witness :
  extract_hours monday_page !! "monday" = Some "9 am-5 pm"
  /\ In "monday"
        [ "monday"; "tuesday"; "wednesday"; "thursday"; "friday"; "saturday";
          "sunday" ].
Proof.
  split; [vm_compute; reflexivity|].
  apply (hours_keys_are_weekdays monday_page "monday").
  vm_compute. eauto.
Defined.

(** ** Coordinates *)

Definition no_bang (s : string) : bool := no_char (Ascii.eqb "!") s.

Lemma no_bang_app a b : no_bang (a +:+ b) = no_bang a && no_bang b.
Proof.
  unfold no_bang, no_char. induction a as [|c a IH]; [reflexivity|].
  rewrite sapp_cons. cbn [all_chars]. rewrite IH, andb_assoc. reflexivity.
Qed.

(** What stands between [!3d] and the next [!3d]. *)
Lemma after_3d_piece lat lng rest :
  no_bang lat = true -> no_bang lng = true ->
  first_piece "!3d" (lat +:+ "!4d" +:+ lng +:+ rest)
  = lat +:+ "!4d" +:+ lng +:+ first_piece "!3d" rest.
Proof.
  intros Hlat Hlng. unfold no_bang in *.
  rewrite (first_piece_free _ _ _ _ Hlat). f_equal.
  assert (E : forall x, "!4d" +:+ x = String "!" ("4d" +:+ x)) by reflexivity.
  rewrite !E. unfold first_piece at 1. cbn [split_go].
  replace (String.prefix "!3d" (String "!" ("4d" +:+ lng +:+ rest))) with false
    by reflexivity.
  assert (H4 : no_char (Ascii.eqb "!") ("4d" +:+ lng) = true).
  { change (no_bang ("4d" +:+ lng) = true). rewrite no_bang_app.
    unfold no_bang. rewrite Hlng. reflexivity. }
  rewrite <- (sapp_assoc "4d" lng rest), (split_go_free _ _ _ _ H4).
  unfold first_piece. destruct (split_go "!3d" 0 rest). cbn [fst].
  rewrite sapp_assoc. reflexivity.
Qed.

(** X5.  For an address in which [!3d] first occurs after [pre], followed
    by a latitude and, after [!4d], a longitude, neither of which has a
    [!], and then by nothing or by a [!], the coordinates are that
    latitude and that longitude. *)
Theorem parse_coordinates_reads_the_markers (pre lat lng rest : string) :
  absent_before "!3d" pre = true ->
  no_bang lat = true -> no_bang lng = true ->
  rest = "" \/ (exists r, rest = String "!" r) ->
  parse_coordinates (pre +:+ "!3d" +:+ lat +:+ "!4d" +:+ lng +:+ rest)
  = <["longitude" := lng]> (<["latitude" := lat]> ∅).
Proof.
  intros Hpre Hlat Hlng Hrest. unfold parse_coordinates.
  rewrite (split_first _ _ _ _ Hpre), split_hd.
  rewrite (after_3d_piece _ _ _ Hlat Hlng).
  pose proof (first_piece_headed "!" "3d" rest Hrest) as Hq.
  set (q := first_piece "!3d" rest) in *.
  rewrite (split_first "!" "4d" lat (lng +:+ q)) by (apply absent_before_free, Hlat).
  rewrite split_hd.
  pose proof (first_piece_headed "!" "4d" q Hq) as Hq'.
  rewrite (first_piece_free "!" "4d" lng q Hlng).
  rewrite first_of_split.
  rewrite (first_piece_stops "!" "" lng _ Hlng Hq' eq_refl). reflexivity.
Qed.

Lemma parse_coordinates_reads_the_markers_witness :
  parse_coordinates place_url
  = <["longitude" := "-74.0060"]> (<["latitude" := "40.7128"]> ∅).
Proof.
  apply (parse_coordinates_reads_the_markers
           "https://www.google.com/maps/place/Cafe/data=!4m6!3m5!8m2"
           "40.7128" "-74.0060" "!16s").
  - reflexivity.
  - reflexivity.
  - reflexivity.
  - right. eexists. reflexivity.
Defined.

(** ** The shape of a record *)

Lemma Ok_inj {A} (a b : A) : Ok a = Ok b -> a = b.
Proof. intros H. congruence. Qed.

Lemma business_data_no_error (m : record) (v1 v2 v3 v4 v5 v6 v7 v8 v9 v10 : pyval) :
  (<["coordinates" := v1]> (<["hours" := v2]> (<["reviews_count" := v3]>
   (<["rating" := v4]> (<["category" := v5]> (<["website" := v6]>
   (<["phone" := v7]> (<["address" := v8]> (<["name" := v9]>
   (<["url" := v10]> (∅ : record))))))))))) !! "error" = None.
Proof. rewrite !lookup_insert_ne by discriminate. apply lookup_empty. Qed.

(** X6.  A record returned by [extract_business_data] is of one of two
    kinds.  Either it is the error record, with the keys [url] and
    [error] and no other; or it has no [error] key, it has [hours] and
    [coordinates] bound to mappings, it holds no empty value other than a
    mapping, and it has [url] bound to the address it was asked for
    (unless that address is empty). *)
Theorem extracted_record_shape (page : Page) (url : string) (d : record) :
  extract_business_data page url = Ok d ->
  (exists msg, d = <["error" := VStr msg]> (<["url" := VStr url]> ∅))
  \/ (d !! "error" = None
      /\ (exists hours, d !! "hours" = Some (VDict hours))
      /\ (exists coordinates, d !! "coordinates" = Some (VDict coordinates))
      /\ (forall k v, d !! k = Some v -> truthy v = true \/ is_dict v = true)
      /\ (url <> "" -> d !! "url" = Some (VStr url))).
Proof.
  unfold extract_business_data.
  destruct (extract_body page url) as [bd|e] eqn:Hbody.
  2: { intros H. injection H as <-. left. eauto. }
  intros H. injection H as <-. right.
  unfold extract_body in Hbody.
  destruct (load page); cbn [res_bind] in Hbody; [|discriminate].
  repeat match type of Hbody with
         | context [chain ?p ?s ?f ?v] =>
             destruct (chain p s f v); cbn [res_bind] in Hbody; [|discriminate]
         end.
  apply Ok_inj in Hbody. subst bd. unfold non_empty_data.
  split; [|split; [|split; [|split]]].
  - apply map_lookup_filter_None. left.
    rewrite !lookup_insert_ne by discriminate. apply lookup_empty.
  - eexists. apply map_lookup_filter_Some. split.
    + rewrite lookup_insert_ne by discriminate. apply lookup_insert_eq.
    + unfold keep. simpl. apply orb_true_r.
  - eexists. apply map_lookup_filter_Some. split.
    + apply lookup_insert_eq.
    + unfold keep. simpl. apply orb_true_r.
  - intros k v Hk. apply map_lookup_filter_Some in Hk as [_ Hkeep].
    unfold keep in Hkeep. simpl in Hkeep. apply orb_true_iff in Hkeep. exact Hkeep.
  - intros Hurl. apply map_lookup_filter_Some. split.
    + rewrite !lookup_insert_ne by discriminate. apply lookup_insert_eq.
    + unfold keep. simpl. destruct url; [congruence|reflexivity].
Qed.

(** A page that cannot be loaded. *)
Definition unreachable_page : Page :=
  {| load := Raise (WebDriverException "net::ERR_NAME_NOT_RESOLVED");
     wait_presence := fun s => Ok tt;
     find_element := no_such_element;
     hours_buttons := Ok [] |}.

Lemma extracted_record_shape_witness :
  exists msg,
    extract_business_data unreachable_page plain_url
    = Ok (<["error" := VStr msg]> (<["url" := VStr plain_url]> ∅)).
Proof.
  destruct (extracted_record_shape unreachable_page plain_url _ eq_refl)
    as [[msg Hmsg]|[Herr _]].
  - exists msg. rewrite <- Hmsg. reflexivity.
  - vm_compute in Herr. discriminate.
Defined.

End DetailMore.

(** * Email Discovery: the crawl, the pattern, the domain, the fallbacks *)

Module EmailMore.
Import Py PyFacts SplitFacts Email EmailSpec.

(** ** The crawl is bounded and never fetches an address twice *)

Definition log_visited (st : Crawl) : Prop :=
  forall u, u ∈ fetched st -> u ∈ visited_urls st.

Lemma pop_unvisited_fresh visited : forall queue u rest,
  pop_unvisited visited queue = Some (u, rest) -> u ∉ visited.
Proof.
  induction queue as [|x queue IH]; intros u rest; cbn [pop_unvisited]; [discriminate|].
  destruct (bool_decide (x ∈ visited)) eqn:Hx; [apply IH|].
  intros H. injection H as <- <-. apply bool_decide_eq_false in Hx. exact Hx.
Qed.

Lemma crawl_pages_bounded web domain n : forall st,
  log_visited st -> NoDup (fetched st) ->
  NoDup (fetched (crawl_pages web domain n st))
  /\ length (fetched (crawl_pages web domain n st)) <= length (fetched st) + n.
Proof.
  induction n as [|n IH]; intros st Hlog Hnd; cbn [crawl_pages]; [split; [exact Hnd|lia]|].
  destruct (pop_unvisited (visited_urls st) (urls_to_visit st)) as [[u q]|] eqn:Hpop;
    [|cbn [fetched]; split; [exact Hnd|lia]].
  apply pop_unvisited_fresh in Hpop.
  assert (Hnd' : NoDup (fetched st ++ [u])).
  { apply NoDup_app. split; [exact Hnd|]. split; [|apply NoDup_singleton].
    intros x Hx Hxu. apply list_elem_of_singleton in Hxu. subst x.
    apply Hpop, Hlog, Hx. }
  assert (Hlen : length (fetched st ++ [u]) = S (length (fetched st)))
    by (rewrite length_app; simpl; lia).
  assert (Hstop : forall st',
            fetched st' = fetched st ++ [u] ->
            NoDup (fetched st') /\ length (fetched st') <= length (fetched st) + S n).
  { intros st' Hf. rewrite Hf. split; [exact Hnd'|lia]. }
  assert (Hstep : forall st',
            fetched st' = fetched st ++ [u] ->
            visited_urls st' = {[ u ]} ∪ visited_urls st ->
            NoDup (fetched (crawl_pages web domain n st'))
            /\ length (fetched (crawl_pages web domain n st'))
               <= length (fetched st) + S n).
  { intros st' Hf Hv. destruct (IH st') as [H1 H2].
    - intros x Hx. rewrite Hf in Hx. rewrite Hv.
      apply elem_of_app in Hx as [Hx|Hx].
      + apply elem_of_union_r, Hlog, Hx.
      + apply list_elem_of_singleton in Hx. subst x.
        apply elem_of_union_l, elem_of_singleton. reflexivity.
    - rewrite Hf. exact Hnd'.
    - split; [exact H1|]. rewrite Hf, Hlen in H2. lia. }
  destruct (web u) as [response|[]];
    try (apply Hstop; reflexivity); try (apply Hstep; reflexivity).
  destruct (S (page_count st) =? 1); [|apply Hstep; reflexivity].
  destruct (scan_links _ _ _ _ _) as [q' []];
    [apply Hstep; reflexivity|apply Hstop; reflexivity].
Qed.

(** X7.  A crawl fetches at most [max_pages] addresses, and no address
    twice, whatever the site links to. *)
Theorem crawl_is_bounded (web : Web) (url : string) (max_pages : nat) :
  length (fetched (crawl web url max_pages)) <= max_pages
  /\ NoDup (fetched (crawl web url max_pages)).
Proof.
  unfold crawl.
  match goal with
  | |- context [crawl_pages ?w ?d ?n ?st] =>
      destruct (crawl_pages_bounded w d n st) as [H1 H2]
  end.
  - intros u Hu. cbn [fetched] in Hu. apply elem_of_nil in Hu. destruct Hu.
  - apply NoDup_nil_2.
  - split; [exact H2|exact H1].
Qed.

(** ** The shape of a matched address *)

(** [local@domain.tld]: a non-empty local part, a non-empty domain, and
    a last label of two letters or more. *)
Definition well_formed (email : string) : Prop :=
  exists local domain tld,
    email = local +:+ "@" +:+ domain +:+ "." +:+ tld
    /\ nonempty local = true /\ all_chars is_local_char local = true
    /\ nonempty domain = true /\ all_chars is_domain_char domain = true
    /\ 2 <= String.length tld /\ all_chars is_alpha tld = true.

Lemma tld_split_spec : forall run before tld,
  tld_split run = Some (before, tld) ->
  all_chars is_domain_char run = true ->
  all_chars is_domain_char before = true
  /\ 2 <= String.length tld /\ all_chars is_alpha tld = true.
Proof.
  induction run as [|c run IH]; intros before tld; cbn [tld_split]; [discriminate|].
  intros H Hrun. cbn [all_chars] in Hrun. apply andb_true_iff in Hrun as [Hc Hrun].
  destruct (tld_split run) as [[b t]|] eqn:Hrec.
  - injection H as <- <-. destruct (IH _ _ eq_refl Hrun) as (Hb & Hlen & Ht).
    cbn [all_chars]. rewrite Hc, Hb. repeat split; auto.
  - destruct (Ascii.eqb c "." && (2 <=? String.length (take_while is_alpha run)))
      eqn:Hcond; [|discriminate].
    injection H as <- <-. apply andb_true_iff in Hcond as [_ Hlen].
    apply Nat.leb_le in Hlen. rewrite all_chars_take_while. repeat split; auto.
Qed.

Lemma match_email_well_formed s email :
  match_email s = Some email -> well_formed email.
Proof.
  unfold match_email. intros H.
  destruct (drop_while is_local_char s) as [|c after_at]; [discriminate|].
  destruct (Ascii.eqb c "@" && nonempty (take_while is_local_char s)) eqn:Hc;
    [|discriminate].
  apply andb_true_iff in Hc as [_ Hlocal].
  destruct (take_while is_domain_char after_at) as [|d run] eqn:Hrun; [discriminate|].
  pose proof (all_chars_take_while is_domain_char after_at) as Hdom.
  rewrite Hrun in Hdom. cbn [all_chars] in Hdom.
  apply andb_true_iff in Hdom as [Hd Hdom].
  destruct (tld_split run) as [[before tld]|] eqn:Hsplit; [|discriminate].
  injection H as <-.
  destruct (tld_split_spec _ _ _ Hsplit Hdom) as (Hb & Hlen & Ht).
  exists (take_while is_local_char s), (String d before), tld.
  split; [reflexivity|]. rewrite all_chars_take_while.
  cbn [all_chars nonempty]. rewrite Hd, Hb. repeat split; auto.
Qed.

Lemma findall_emails_go_matched : forall s skip email,
  In email (findall_emails_go skip s) ->
  exists s', match_email s' = Some email.
Proof.
  induction s as [|c s IH]; intros skip email; cbn [findall_emails_go]; [intros []|].
  destruct skip as [|k]; [|apply IH].
  destruct (match_email (String c s)) as [e|] eqn:Hm; [|apply IH].
  intros [<-|Hin]; [eauto|]. eapply IH, Hin.
Qed.

(** X8.  Every address the pattern finds in a text has a non-empty local
    part of the allowed characters, an [@], a non-empty domain of the
    allowed characters, a point, and a last label of at least two
    letters. *)
Theorem found_emails_are_well_formed (html email : string) :
  In email (findall_emails html) ->
  exists local domain tld,
    email = local +:+ "@" +:+ domain +:+ "." +:+ tld
    /\ nonempty local = true /\ all_chars is_local_char local = true
    /\ nonempty domain = true /\ all_chars is_domain_char domain = true
    /\ 2 <= String.length tld /\ all_chars is_alpha tld = true.
Proof.
  intros Hin. destruct (findall_emails_go_matched _ _ _ Hin) as [s' Hm].
  exact (match_email_well_formed _ _ Hm).
Qed.

Lemma found_emails_are_well_formed_witness :
  In "Info@Example.com" (findall_emails "mail Info@Example.com, or call")
  /\ exists local domain tld,
       "Info@Example.com" = local +:+ "@" +:+ domain +:+ "." +:+ tld
       /\ nonempty local = true /\ all_chars is_local_char local = true
       /\ nonempty domain = true /\ all_chars is_domain_char domain = true
       /\ 2 <= String.length tld /\ all_chars is_alpha tld = true.
Proof.
  split; [left; reflexivity|].
  apply (found_emails_are_well_formed "mail Info@Example.com, or call").
  left. reflexivity.
Defined.

(** X9.  Every address [find_emails_on_page] returns is the lower-case
    form of an address the pattern found in the page, is in lower case,
    and does not end in one of the file suffixes. *)
Theorem page_emails_are_filtered (html email : string) :
  email ∈ find_emails_on_page html ->
  (exists found, In found (findall_emails html) /\ email = lower found)
  /\ lowercase email = true
  /\ existsb (endswith email) file_suffixes = false.
Proof.
  unfold find_emails_on_page.
  assert (H : forall found (acc : gset string),
            email ∈ foldl (fun emails e =>
                             if existsb (endswith (lower e)) file_suffixes
                             then emails else {[ lower e ]} ∪ emails) acc found ->
            email ∈ acc
            \/ (exists x, In x found /\ email = lower x)
               /\ existsb (endswith email) file_suffixes = false).
  { induction found as [|x found IH]; intros acc; cbn [foldl]; [auto|].
    intros Hin. destruct (IH _ Hin) as [Hacc|[[y [Hy ->]] Hs]].
    - destruct (existsb (endswith (lower x)) file_suffixes) eqn:Hx; [auto|].
      apply elem_of_union in Hacc as [Hacc|Hacc]; [|auto].
      apply elem_of_singleton in Hacc. subst email. right.
      split; [exists x; split; [left; reflexivity|reflexivity]|exact Hx].
    - right. split; [exists y; split; [right; exact Hy|reflexivity]|exact Hs]. }
  intros Hin. destruct (H _ _ Hin) as [Hempty|[[x [Hx ->]] Hs]].
  - apply elem_of_empty in Hempty. destruct Hempty.
  - split; [eauto|]. split; [apply lowercase_lower|exact Hs].
Qed.

Lemma page_emails_are_filtered_witness :
  "info@example.com" ∈ find_emails_on_page "Info@Example.com logo@2x.png"
  /\ lowercase "info@example.com" = true
  /\ existsb (endswith "info@example.com") file_suffixes = false.
Proof.
  assert (Hin : "info@example.com" ∈ find_emails_on_page "Info@Example.com logo@2x.png")
    by (vm_compute; reflexivity).
  split; [exact Hin|].
  apply (page_emails_are_filtered "Info@Example.com logo@2x.png" "info@example.com" Hin).
Defined.

(** ** The domain of an address *)

Lemma first_piece_single c : forall s,
  no_char (Ascii.eqb c) (first_piece (String c "") s) = true.
Proof.
  unfold first_piece, no_char.
  induction s as [|b s IH]; [reflexivity|]. cbn [split_go String.prefix].
  destruct (ascii_dec c b) as [->|Hne].
  - destruct s; reflexivity.
  - destruct (split_go (String c "") 0 s) as [p ps]. cbn [fst all_chars] in *.
    rewrite IH, andb_true_r. apply negb_true_iff, Ascii.eqb_neq, Hne.
Qed.

Lemma contains_single c : forall s,
  contains (String c "") s = false <-> no_char (Ascii.eqb c) s = true.
Proof.
  unfold no_char.
  induction s as [|b s IH]; [split; reflexivity|].
  cbn [contains all_chars String.prefix].
  rewrite orb_false_iff, andb_true_iff, IH, negb_true_iff.
  destruct (ascii_dec c b) as [->|Hne].
  - rewrite Ascii.eqb_refl. destruct s; split; intros [H _]; discriminate.
  - apply Ascii.eqb_neq in Hne. rewrite Hne. tauto.
Qed.

(** X10.  [extract_domain_from_url] gives nothing for the empty address
    and for no other; the domain it gives is in lower case and has no
    [/]. *)
Theorem extracted_domain_is_clean (url : string) :
  (extract_domain_from_url url = None <-> url = "")
  /\ forall domain,
       extract_domain_from_url url = Some domain ->
       lowercase domain = true /\ contains "/" domain = false.
Proof.
  split.
  - unfold extract_domain_from_url. destruct url; simpl; split; congruence.
  - intros domain H. split; [exact (extract_domain_lowercase _ _ H)|].
    unfold extract_domain_from_url in H. destruct (nonempty url); [|discriminate].
    injection H as <-. rewrite first_of_split.
    apply contains_single, first_piece_single.
Qed.

Lemma lower_sapp s t : lower (s +:+ t) = lower s +:+ lower t.
Proof.
  unfold lower. induction s as [|c s IH]; [reflexivity|].
  rewrite sapp_cons. cbn [map_chars]. rewrite IH. reflexivity.
Qed.

Lemma remove_scheme_https x : remove_scheme ("https://" +:+ x) = x.
Proof.
  unfold remove_scheme, startswith. rewrite prefix_sapp_self. reflexivity.
Qed.

Lemma remove_prefix_www x : remove_prefix "www." ("www." +:+ x) = x.
Proof. unfold remove_prefix. rewrite prefix_sapp_self. reflexivity. Qed.

(** X11.  For a domain in lower case with no [/], the address
    [https://www.<domain>/<path>] (with no white space around it) has
    that domain. *)
Theorem extracted_domain_of_an_address (domain path : string) :
  lowercase domain = true ->
  contains "/" domain = false ->
  strip ("https://www." +:+ domain +:+ "/" +:+ path)
  = "https://www." +:+ domain +:+ "/" +:+ path ->
  extract_domain_from_url ("https://www." +:+ domain +:+ "/" +:+ path)
  = Some domain.
Proof.
  intros Hlow Hslash Hstrip. unfold extract_domain_from_url.
  replace (nonempty ("https://www." +:+ domain +:+ "/" +:+ path)) with true
    by reflexivity.
  rewrite Hstrip, !lower_sapp, (lower_lowercase _ Hlow).
  change (lower "https://www.") with ("https://" +:+ "www.").
  change (lower "/") with "/".
  rewrite sapp_assoc, remove_scheme_https, remove_prefix_www.
  rewrite (split_first "/" "" domain (lower path)); [reflexivity|].
  apply absent_before_free, contains_single, Hslash.
Qed.

Lemma extracted_domain_of_an_address_witness :
  extract_domain_from_url ("https://www." +:+ "example.com" +:+ "/" +:+ "About?x=1")
  = Some "example.com".
Proof.
  apply (extracted_domain_of_an_address "example.com" "About?x=1");
    vm_compute; reflexivity.
Defined.

(** ** The generated addresses *)

Lemma sapp_inj_r t : forall s1 s2, s1 +:+ t = s2 +:+ t -> s1 = s2.
Proof.
  induction s1 as [|a s1 IH]; intros [|b s2] H.
  - reflexivity.
  - apply (f_equal String.length) in H.
    rewrite sapp_nil_l, sapp_cons in H. cbn [String.length] in H.
    rewrite length_sapp in H. lia.
  - apply (f_equal String.length) in H.
    rewrite sapp_nil_l, sapp_cons in H. cbn [String.length] in H.
    rewrite length_sapp in H. lia.
  - rewrite !sapp_cons in H. injection H as -> H. f_equal. exact (IH _ H).
Qed.

Lemma common_prefixes_distinct : NoDup common_prefixes.
Proof. apply (bool_decide_unpack _). vm_compute. exact I. Qed.

(** X12.  For a non-empty domain and no business name, the generated
    addresses are the seventeen role addresses at that domain, one per
    role prefix and all distinct; for an empty domain none is
    generated. *)
Theorem role_addresses_are_distinct (domain : string) (business_name : pyval) :
  nonempty domain = true -> truthy business_name = false ->
  exists generated,
    generate_common_emails domain business_name VNone = Ok generated
    /\ generated = map (fun prefix => prefix +:+ "@" +:+ domain) common_prefixes
    /\ length generated = 17
    /\ NoDup generated
    /\ generate_common_emails "" business_name VNone = Ok [].
Proof.
  intros Hd Hn. eexists. unfold generate_common_emails at 1.
  rewrite Hd, Hn. cbn [negb res_bind truthy]. split; [reflexivity|].
  split; [reflexivity|]. split; [reflexivity|]. split; [|reflexivity].
  assert (Hinj : Inj (=) (=) (fun prefix => prefix +:+ "@" +:+ domain)).
  { intros p1 p2 H. eapply sapp_inj_r, H. }
  apply (NoDup_fmap_2 _), common_prefixes_distinct.
Qed.

Lemma role_addresses_are_distinct_witness :
  exists generated,
    generate_common_emails "acme.com" (VStr "") VNone = Ok generated
    /\ generated = map (fun prefix => prefix +:+ "@" +:+ "acme.com") common_prefixes
    /\ length generated = 17
    /\ NoDup generated
    /\ generate_common_emails "" (VStr "") VNone = Ok [].
Proof.
  apply (role_addresses_are_distinct "acme.com" (VStr "")); reflexivity.
Defined.

(** ** Found addresses are not mixed with generated ones *)

(** X13.  When the crawl of a (non-empty) website address finds an
    address, and the business name is absent or a string, the record's
    [emails] are the addresses the crawl found, sorted: no generated
    address is added to them. *)
Theorem found_emails_are_kept_alone
    (web : Web) (business_data : record) (url : string) :
  business_data !! "website" = Some (VStr url) -> url <> "" ->
  business_data !! "name" = None
  \/ (exists name, business_data !! "name" = Some (VStr name)) ->
  scrape_website_for_emails web url default_max_pages <> [] ->
  enrich_business_data_with_emails web business_data !! "emails"
  = Some (VList (sorted_emails (scrape_website_for_emails web url default_max_pages))).
Proof.
  intros Hweb Hurl0 Hname Hfound.
  assert (Hd : discover web business_data
               = Ok (scrape_website_for_emails web url default_max_pages)).
  { unfold discover. rewrite Hweb. cbn [default id truthy].
    replace (nonempty url) with true by (destruct url; [congruence|reflexivity]).
    cbn [as_str res_bind].
    destruct (extract_domain_from_url url) as [domain|]; [|reflexivity].
    destruct (nonempty domain) eqn:Hdom; [|reflexivity].
    assert (Hgen : exists g, generate_common_emails domain
                     (default (VStr "") (business_data !! "name")) VNone = Ok g).
    { unfold generate_common_emails. rewrite Hdom. cbn [negb].
      destruct Hname as [->|[name ->]]; cbn [default id truthy res_bind as_str].
      - eauto.
      - destruct (nonempty name); cbn [res_bind as_str]; [|eauto].
        destruct (nonempty (filter_chars is_alnum (lower name)));
          cbn [res_bind]; eauto. }
    destruct Hgen as [g ->]. cbn [res_bind].
    destruct (scrape_website_for_emails web url default_max_pages); [congruence|].
    destruct g; reflexivity. }
  rewrite (enrich_emails _ _ _ Hd).
  rewrite lookup_insert_ne by discriminate. apply lookup_insert_eq.
Qed.

Lemma found_emails_are_kept_alone_witness :
  enrich_business_data_with_emails web_three x_com !! "emails"
  = Some (VList (sorted_emails
                   (scrape_website_for_emails web_three "https://x.com"
                      default_max_pages))).
Proof.
  apply (found_emails_are_kept_alone web_three x_com "https://x.com").
  - reflexivity.
  - discriminate.
  - right. exists "X". reflexivity.
  - vm_compute. discriminate.
Defined.

End EmailMore.

(** * Export: what flattening keeps and what it removes *)

Module FlattenMore.
Import Py PyFacts SplitFacts Flatten.

(** [isinstance(v, list)] *)
Definition is_list (v : pyval) : bool :=
  match v with
  | VList _ => true
  | _ => false
  end.

Lemma sapp_inj_l p : forall a b, p +:+ a = p +:+ b -> a = b.
Proof.
  induction p as [|c p IH]; intros a b H; [exact H|].
  rewrite !sapp_cons in H. injection H as H. exact (IH _ _ H).
Qed.

(** ** One nested mapping *)

Lemma spread_written prefix (d : gmap string string) (flat : record) key value :
  d !! key = Some value ->
  spread prefix d flat !! (prefix +:+ key) = Some (VStr value).
Proof.
  unfold spread. revert key value.
  apply (map_fold_weak_ind
           (fun (r : record) (m : gmap string string) =>
              forall key value, m !! key = Some value ->
                r !! (prefix +:+ key) = Some (VStr value))).
  - intros key value H. rewrite lookup_empty in H. discriminate.
  - intros i x m r Hi IH key value H.
    destruct (decide (i = key)) as [->|Hne].
    + rewrite lookup_insert_eq in H. injection H as ->. apply lookup_insert_eq.
    + rewrite lookup_insert_ne in H by exact Hne.
      rewrite lookup_insert_ne; [exact (IH _ _ H)|].
      intros Heq. apply Hne. exact (sapp_inj_l _ _ _ Heq).
Qed.

Lemma spread_other prefix (d : gmap string string) (flat : record) k :
  String.prefix prefix k = false ->
  spread prefix d flat !! k = flat !! k.
Proof.
  intros Hk. unfold spread.
  apply (map_fold_weak_ind
           (fun (r : record) (m : gmap string string) => r !! k = flat !! k)).
  - reflexivity.
  - intros i x m r Hi IH. rewrite lookup_insert_ne; [exact IH|].
    intros <-. rewrite prefix_sapp_self in Hk. discriminate.
Qed.

Lemma spread_scalar prefix (d : gmap string string) (flat : record) k v :
  spread prefix d flat !! k = Some v ->
  is_dict v || is_list v = true -> flat !! k = Some v.
Proof.
  unfold spread. revert k v.
  apply (map_fold_weak_ind
           (fun (r : record) (m : gmap string string) =>
              forall k v, r !! k = Some v ->
                is_dict v || is_list v = true -> flat !! k = Some v)).
  - auto.
  - intros i x m r Hi IH k v H Hv.
    destruct (decide (prefix +:+ i = k)) as [<-|Hne].
    + rewrite lookup_insert_eq in H. injection H as <-. discriminate.
    + rewrite lookup_insert_ne in H by exact Hne. exact (IH _ _ H Hv).
Qed.

(** ** The steps, away from the keys they write *)

Lemma flatten_coordinates_other flat k :
  k <> "coordinates" -> String.prefix "coordinates_" k = false ->
  flatten_coordinates flat !! k = flat !! k.
Proof.
  intros Hk Hp. unfold flatten_coordinates.
  destruct (flat !! "coordinates") as [[]|]; try reflexivity.
  rewrite lookup_delete_ne by congruence. apply spread_other, Hp.
Qed.

Lemma flatten_hours_other flat k :
  k <> "hours" -> String.prefix "hours_" k = false ->
  flatten_hours flat !! k = flat !! k.
Proof.
  intros Hk Hp. unfold flatten_hours.
  destruct (flat !! "hours") as [[]|]; try reflexivity.
  rewrite lookup_delete_ne by congruence. apply spread_other, Hp.
Qed.

Lemma email_key_inj i j : i < 200 -> j < 200 -> email_key i = email_key j -> i = j.
Proof.
  unfold email_key. intros Hi Hj H. apply sapp_inj_l in H. injection H as H.
  apply (f_equal nat_of_ascii) in H.
  rewrite !nat_ascii_embedding in H by lia. lia.
Qed.

Lemma number_emails_other k : forall emails i flat,
  (forall j, j < length emails -> k <> email_key (i + j)) ->
  number_emails i emails flat !! k = flat !! k.
Proof.
  induction emails as [|e emails IH]; intros i flat Hk; cbn [number_emails];
    [reflexivity|].
  rewrite IH.
  - apply lookup_insert_ne. specialize (Hk 0). rewrite Nat.add_0_r in Hk.
    intros Heq. apply Hk; [simpl; lia|]. symmetry. exact Heq.
  - intros j Hj. replace (S i + j) with (i + S j) by lia. apply Hk. simpl. lia.
Qed.

Lemma number_emails_written : forall emails i flat j email,
  i + length emails <= 200 ->
  emails !! j = Some email ->
  number_emails i emails flat !! email_key (i + j) = Some (VStr email).
Proof.
  induction emails as [|e emails IH]; intros i flat j email Hlen Hj;
    [discriminate|].
  cbn [number_emails]. cbn [length] in Hlen. destruct j as [|j].
  - injection Hj as ->. rewrite Nat.add_0_r. rewrite number_emails_other.
    + apply lookup_insert_eq.
    + intros j Hj Heq. apply email_key_inj in Heq; lia.
  - replace (i + S j) with (S i + j) by lia. apply IH; [lia|exact Hj].
Qed.

Lemma not_email_key k :
  String.length k <> 7 -> forall i, k <> email_key i.
Proof. intros Hk i ->. apply Hk. reflexivity. Qed.

Lemma flatten_emails_other flat k :
  k <> "emails" -> k <> "all_emails" -> (forall i, k <> email_key i) ->
  flatten_emails flat !! k = flat !! k.
Proof.
  intros H1 H2 H3. unfold flatten_emails.
  destruct (flat !! "emails") as [[]|]; try reflexivity.
  rewrite lookup_delete_ne by congruence.
  rewrite lookup_insert_ne by congruence.
  apply number_emails_other. intros j _. apply H3.
Qed.

Lemma flatten_template_other flat k :
  k <> "email_template" -> flatten_template flat !! k = flat !! k.
Proof.
  intros Hk. unfold flatten_template.
  destruct (flat !! "email_template") as [[]|]; try reflexivity.
  destruct (_ <? _); [|reflexivity]. apply lookup_insert_ne. congruence.
Qed.

(** ** The steps keep no nested value they are in charge of *)

Lemma number_emails_scalar : forall emails i (flat : record) k v,
  number_emails i emails flat !! k = Some v ->
  is_dict v || is_list v = true -> flat !! k = Some v.
Proof.
  induction emails as [|e emails IH]; intros i flat k v H Hv; [exact H|].
  cbn [number_emails] in H. apply IH in H; [|exact Hv].
  destruct (decide (email_key i = k)) as [<-|Hne].
  - rewrite lookup_insert_eq in H. injection H as <-. discriminate.
  - rewrite lookup_insert_ne in H by exact Hne. exact H.
Qed.

Lemma flatten_coordinates_nested (flat : record) k v :
  flatten_coordinates flat !! k = Some v ->
  is_dict v || is_list v = true ->
  flat !! k = Some v /\ (is_dict v = true -> k <> "coordinates").
Proof.
  unfold flatten_coordinates. intros H Hv.
  destruct (flat !! "coordinates") as [c|] eqn:Hc.
  - destruct c; try (split; [exact H|intros Hd ->; rewrite Hc in H;
                                     injection H as <-; discriminate]).
    destruct (decide (k = "coordinates")) as [->|Hne].
    + rewrite lookup_delete_eq in H. discriminate.
    + rewrite lookup_delete_ne in H by congruence.
      split; [exact (spread_scalar _ _ _ _ _ H Hv)|intros _; exact Hne].
  - split; [exact H|]. intros _ ->. rewrite Hc in H. discriminate.
Qed.

Lemma flatten_hours_nested (flat : record) k v :
  flatten_hours flat !! k = Some v ->
  is_dict v || is_list v = true ->
  flat !! k = Some v /\ (is_dict v = true -> k <> "hours").
Proof.
  unfold flatten_hours. intros H Hv.
  destruct (flat !! "hours") as [c|] eqn:Hc.
  - destruct c; try (split; [exact H|intros Hd ->; rewrite Hc in H;
                                     injection H as <-; discriminate]).
    destruct (decide (k = "hours")) as [->|Hne].
    + rewrite lookup_delete_eq in H. discriminate.
    + rewrite lookup_delete_ne in H by congruence.
      split; [exact (spread_scalar _ _ _ _ _ H Hv)|intros _; exact Hne].
  - split; [exact H|]. intros _ ->. rewrite Hc in H. discriminate.
Qed.

Lemma flatten_emails_nested (flat : record) k v :
  flatten_emails flat !! k = Some v ->
  is_dict v || is_list v = true ->
  flat !! k = Some v /\ (is_list v = true -> k <> "emails").
Proof.
  unfold flatten_emails. intros H Hv.
  destruct (flat !! "emails") as [c|] eqn:Hc.
  - destruct c; try (split; [exact H|intros Hd ->; rewrite Hc in H;
                                     injection H as <-; discriminate]).
    destruct (decide (k = "emails")) as [->|Hne].
    + rewrite lookup_delete_eq in H. discriminate.
    + rewrite lookup_delete_ne in H by congruence.
      destruct (decide (k = "all_emails")) as [->|Hne'].
      * rewrite lookup_insert_eq in H. injection H as <-. discriminate.
      * rewrite lookup_insert_ne in H by congruence.
        split; [exact (number_emails_scalar _ _ _ _ _ H Hv)|intros _; exact Hne].
  - split; [exact H|]. intros _ ->. rewrite Hc in H. discriminate.
Qed.

Lemma flatten_template_nested (flat : record) k v :
  flatten_template flat !! k = Some v ->
  is_dict v || is_list v = true -> flat !! k = Some v.
Proof.
  unfold flatten_template. intros H Hv.
  destruct (flat !! "email_template") as [[]|] eqn:Hc; try exact H.
  destruct (_ <? _); [|exact H].
  destruct (decide (k = "email_template")) as [->|Hne].
  - rewrite lookup_insert_eq in H. injection H as <-. discriminate.
  - rewrite lookup_insert_ne in H by congruence. exact H.
Qed.

(** ** The properties *)

(** X14.  Flattening loses nothing of the coordinates and of the opening
    hours: each entry of the two nested mappings is found again under
    [coordinates_<key>] and [hours_<day>], and the two nested keys are
    gone.  The same holds of the CSV flattening of the scraper's own
    [save_results_to_file]. *)
Theorem flattening_keeps_nested_entries
    (business : record) (coordinates hours : gmap string string) :
  business !! "coordinates" = Some (VDict coordinates) ->
  business !! "hours" = Some (VDict hours) ->
  forall flatten,
    flatten = flatten_business_data \/ flatten = flat_business_csv ->
    (forall key value, coordinates !! key = Some value ->
       flatten business !! ("coordinates_" +:+ key) = Some (VStr value))
    /\ (forall day value, hours !! day = Some value ->
          flatten business !! ("hours_" +:+ day) = Some (VStr value))
    /\ flatten business !! "coordinates" = None
    /\ flatten business !! "hours" = None.
Proof.
  intros Hc Hh flatten Hf.
  assert (Hh' : flatten_coordinates business !! "hours" = Some (VDict hours)).
  { rewrite flatten_coordinates_other by (congruence || reflexivity). exact Hh. }
  assert (Hcsv :
    (forall key value, coordinates !! key = Some value ->
       flat_business_csv business !! ("coordinates_" +:+ key) = Some (VStr value))
    /\ (forall day value, hours !! day = Some value ->
          flat_business_csv business !! ("hours_" +:+ day) = Some (VStr value))
    /\ flat_business_csv business !! "coordinates" = None
    /\ flat_business_csv business !! "hours" = None).
  { unfold flat_business_csv. repeat split.
    - intros key value Hk.
      rewrite flatten_hours_other by (discriminate || reflexivity).
      unfold flatten_coordinates. rewrite Hc.
      rewrite lookup_delete_ne by discriminate.
      apply spread_written, Hk.
    - intros day value Hd. unfold flatten_hours at 1. rewrite Hh'.
      rewrite lookup_delete_ne by discriminate.
      apply spread_written, Hd.
    - rewrite flatten_hours_other by (discriminate || reflexivity).
      unfold flatten_coordinates. rewrite Hc. apply lookup_delete_eq.
    - unfold flatten_hours at 1. rewrite Hh'. apply lookup_delete_eq. }
  destruct Hf as [->| ->]; [|exact Hcsv].
  destruct Hcsv as (H1 & H2 & H3 & H4).
  assert (Hlater : forall k,
            k <> "emails" -> k <> "all_emails" -> k <> "email_template" ->
            String.length k <> 7 ->
            flatten_business_data business !! k = flat_business_csv business !! k).
  { intros k Ha Hb Hd He. unfold flatten_business_data, flat_business_csv.
    rewrite flatten_template_other by exact Hd.
    apply flatten_emails_other; [exact Ha|exact Hb|apply not_email_key, He]. }
  repeat split.
  - intros key value Hk. rewrite Hlater; try discriminate. exact (H1 _ _ Hk).
  - intros day value Hd.
    unfold flatten_business_data.
    rewrite flatten_template_other by discriminate.
    rewrite flatten_emails_other; [exact (H2 _ _ Hd)|discriminate|discriminate|].
    intros i. unfold email_key. discriminate.
  - rewrite Hlater; try discriminate. exact H3.
  - rewrite Hlater; try discriminate. exact H4.
Qed.

Lemma flattening_keeps_nested_entries_witness :
  flatten_business_data cafe !! ("coordinates_" +:+ "latitude") = Some (VStr "40.7")
  /\ flatten_business_data cafe !! ("hours_" +:+ "monday") = Some (VStr "9-5")
  /\ flatten_business_data cafe !! "coordinates" = None.
Proof.
  destruct (flattening_keeps_nested_entries cafe
              (<["latitude" := "40.7"]> (<["longitude" := "-74.0"]> ∅))
              (<["monday" := "9-5"]> ∅) eq_refl eq_refl
              flatten_business_data (or_introl eq_refl))
    as (H1 & H2 & H3 & _).
  split; [apply H1; reflexivity|]. split; [apply H2; reflexivity|exact H3].
Defined.

(** X15.  Flattening leaves no nested value of its own making: a mapping
    found in the flat record was in the business record under the same
    key, which is neither [coordinates] nor [hours]; a list found in it
    was in the business record under the same key, which is not
    [emails]. *)
Theorem flat_record_nests_nothing_new (business : record) (k : string) (v : pyval) :
  flatten_business_data business !! k = Some v ->
  (is_dict v = true ->
     business !! k = Some v /\ k <> "coordinates" /\ k <> "hours")
  /\ (is_list v = true -> business !! k = Some v /\ k <> "emails").
Proof.
  intros H.
  assert (Hall : is_dict v || is_list v = true ->
            business !! k = Some v
            /\ (is_dict v = true -> k <> "coordinates" /\ k <> "hours")
            /\ (is_list v = true -> k <> "emails")).
  { intros Hv. unfold flatten_business_data in H.
    apply flatten_template_nested in H; [|exact Hv].
    apply flatten_emails_nested in H as [H He]; [|exact Hv].
    apply flatten_hours_nested in H as [H Hh]; [|exact Hv].
    apply flatten_coordinates_nested in H as [H Hc]; [|exact Hv].
    auto. }
  split; intros Hv.
  - destruct Hall as (H1 & H2 & _); [rewrite Hv; reflexivity|].
    destruct (H2 Hv). auto.
  - destruct Hall as (H1 & _ & H3); [rewrite Hv; apply orb_true_r|]. auto.
Qed.

Lemma flat_record_nests_nothing_new_witness :
  flatten_business_data (<["tags" := VList ["a"]]> cafe) !! "tags" = Some (VList ["a"])
  /\ (<["tags" := VList ["a"]]> cafe : record) !! "tags" = Some (VList ["a"])
  /\ "tags" <> "emails".
Proof.
  assert (H : flatten_business_data (<["tags" := VList ["a"]]> cafe) !! "tags"
              = Some (VList ["a"])) by (vm_compute; reflexivity).
  split; [exact H|].
  exact (proj2 (flat_record_nests_nothing_new _ _ _ H) eq_refl).
Defined.

(** X16.  For a record whose [emails] is a list, flattening writes the
    first five addresses to [email_1] ... [email_5] in order, writes all
    of them, joined by a comma and a space, to [all_emails], removes
    [emails], and leaves every other numbered column as it was. *)
Theorem flattening_numbers_the_emails (business : record) (emails : list string) :
  business !! "emails" = Some (VList emails) ->
  flatten_business_data business !! "emails" = None
  /\ flatten_business_data business !! "all_emails" = Some (VStr (join ", " emails))
  /\ (forall i email, i < 5 -> emails !! i = Some email ->
        flatten_business_data business !! email_key i = Some (VStr email))
  /\ (forall i, i < 9 -> 5 <= i \/ length emails <= i ->
        flatten_business_data business !! email_key i = business !! email_key i).
Proof.
  intros He.
  assert (Hcsv : forall k, String.prefix "coordinates_" k = false ->
            String.prefix "hours_" k = false ->
            k <> "coordinates" -> k <> "hours" ->
            flat_business_csv business !! k = business !! k).
  { intros k H1 H2 H3 H4. unfold flat_business_csv.
    rewrite flatten_hours_other, flatten_coordinates_other; auto. }
  assert (He' : flat_business_csv business !! "emails" = Some (VList emails)).
  { rewrite Hcsv by (reflexivity || discriminate). exact He. }
  assert (Hkey : forall i, flat_business_csv business !! email_key i
                           = business !! email_key i).
  { intros i. apply Hcsv; unfold email_key; (reflexivity || discriminate). }
  unfold flatten_business_data. fold (flat_business_csv business).
  repeat split.
  - rewrite flatten_template_other by discriminate.
    unfold flatten_emails. rewrite He'. apply lookup_delete_eq.
  - rewrite flatten_template_other by discriminate.
    unfold flatten_emails. rewrite He'.
    rewrite lookup_delete_ne by discriminate. apply lookup_insert_eq.
  - intros i email Hi Hm.
    rewrite flatten_template_other by (unfold email_key; discriminate).
    unfold flatten_emails. rewrite He'.
    rewrite lookup_delete_ne by (unfold email_key; discriminate).
    rewrite lookup_insert_ne by (unfold email_key; discriminate).
    apply (number_emails_written (take 5 emails) 0).
    + rewrite length_take. lia.
    + rewrite lookup_take_lt by exact Hi. exact Hm.
  - intros i Hi Hout.
    rewrite flatten_template_other by (unfold email_key; discriminate).
    unfold flatten_emails. rewrite He'.
    rewrite lookup_delete_ne by (unfold email_key; discriminate).
    rewrite lookup_insert_ne by (unfold email_key; discriminate).
    rewrite number_emails_other; [apply Hkey|].
    intros j Hj Heq. rewrite length_take in Hj.
    apply email_key_inj in Heq; lia.
Qed.

Lemma flattening_numbers_the_emails_witness :
  flatten_business_data cafe !! "emails" = None
  /\ flatten_business_data cafe !! "all_emails"
     = Some (VStr (join ", " ["info@cafe.com"; "owner@cafe.com"]))
  /\ flatten_business_data cafe !! email_key 1 = Some (VStr "owner@cafe.com").
Proof.
  destruct (flattening_numbers_the_emails cafe ["info@cafe.com"; "owner@cafe.com"]
              eq_refl) as (H1 & H2 & H3 & _).
  split; [exact H1|]. split; [exact H2|]. apply H3; [lia|reflexivity].
Defined.

Lemma length_substring_0 : forall n s,
  String.length (String.substring 0 n s) <= n.
Proof.
  induction n as [|n IH]; intros [|c s]; simpl; try lia.
  specialize (IH s). lia.
Qed.

(** X17.  The email template of a flat record is never longer than 1000
    characters: a template of the business record that is within the
    limit is kept as it is, a longer one is cut to its first 997
    characters followed by three points. *)
Theorem flat_template_is_bounded (business : record) (template : string) :
  flatten_business_data business !! "email_template" = Some (VStr template) ->
  String.length template <= 1000
  /\ exists original,
       business !! "email_template" = Some (VStr original)
       /\ (String.length original <= 1000 -> template = original)
       /\ (1000 < String.length original ->
             template = String.substring 0 997 original +:+ "...").
Proof.
  intros H.
  unfold flatten_business_data in H. fold (flat_business_csv business) in H.
  unfold flatten_template in H.
  destruct (flatten_emails (flat_business_csv business) !! "email_template")
    as [v|] eqn:Hx; [|congruence].
  destruct v as [| original | | |]; try congruence.
  assert (Hb : business !! "email_template" = Some (VStr original)).
  { rewrite <- Hx. symmetry.
    rewrite flatten_emails_other;
      [|discriminate|discriminate|intros i; unfold email_key; discriminate].
    unfold flat_business_csv.
    rewrite flatten_hours_other, flatten_coordinates_other;
      (reflexivity || discriminate). }
  unfold template_limit in H.
  destruct (1000 <? String.length original) eqn:Hlen.
  - apply Nat.ltb_lt in Hlen. rewrite lookup_insert_eq in H. injection H as <-.
    split.
    + rewrite length_sapp. pose proof (length_substring_0 997 original).
      change (String.length "...") with 3. lia.
    + exists original. split; [exact Hb|]. split; [lia|reflexivity].
  - apply Nat.ltb_ge in Hlen. rewrite Hx in H. injection H as <-.
    split; [exact Hlen|]. exists original.
    split; [exact Hb|]. split; [reflexivity|lia].
Qed.

Lemma flat_template_is_bounded_witness :
  String.length "Hello" <= 1000
  /\ exists original,
       cafe !! "email_template" = Some (VStr original)
       /\ (String.length original <= 1000 -> "Hello" = original)
       /\ (1000 < String.length original ->
             "Hello" = String.substring 0 997 original +:+ "...").
Proof.
  apply (flat_template_is_bounded cafe "Hello"). vm_compute. reflexivity.
Defined.

End FlattenMore.

(** * Link extraction: what is returned *)

Module LinksMore.
Import Links.

(** An address of a place or of a search of the map. *)
Definition business_address (u : string) : Prop :=
  Py.contains "maps/place" u = true \/ Py.contains "maps/search" u = true.

Lemma is_business_url_address u :
  is_business_url u = true -> business_address u.
Proof. unfold is_business_url. intros H. apply orb_true_iff in H. exact H. Qed.

(** The [href] of an element, when the element has one. *)
Definition href_of (elements : list Card) (u : string) : Prop :=
  exists element, In element elements /\ get_href element = Ok (Some u).

Lemma direct_links_spec : forall elements business_links,
  Forall business_address business_links ->
  Forall business_address (direct_links elements business_links)
  /\ length (direct_links elements business_links)
     <= length business_links + length elements
  /\ forall u, In u (direct_links elements business_links) ->
       In u business_links \/ href_of elements u.
Proof.
  induction elements as [|element rest IH]; intros business_links Hall;
    cbn [direct_links].
  - split; [exact Hall|]. split; [simpl; lia|auto].
  - assert (Hskip :
      Forall business_address (direct_links rest business_links)
      /\ length (direct_links rest business_links)
         <= length business_links + length (element :: rest)
      /\ forall u, In u (direct_links rest business_links) ->
           In u business_links \/ href_of (element :: rest) u).
    { destruct (IH business_links Hall) as (H1 & H2 & H3).
      split; [exact H1|]. split; [simpl; lia|].
      intros u Hu. destruct (H3 u Hu) as [H|(el & Hel & Hh)]; [auto|].
      right. exists el. split; [right; exact Hel|exact Hh]. }
    destruct (get_href element) as [[business_url|]|] eqn:Hhref; try exact Hskip.
    destruct (Py.nonempty business_url && is_business_url business_url) eqn:Hok;
      [|exact Hskip].
    apply andb_true_iff in Hok as [_ Hok].
    destruct (IH (business_links ++ [business_url])) as (H1 & H2 & H3).
    { apply Forall_app. split; [exact Hall|].
      constructor; [exact (is_business_url_address _ Hok)|constructor]. }
    split; [exact H1|]. split; [rewrite length_app in H2; simpl in *; lia|].
    intros u Hu. destruct (H3 u Hu) as [H|(el & Hel & Hh)].
    + apply in_app_or in H as [H|[<-|[]]]; [auto|].
      right. exists element. split; [left; reflexivity|exact Hhref].
    + right. exists el. split; [right; exact Hel|exact Hh].
Qed.

Lemma clicked_links_spec : forall elements business_links,
  Forall business_address business_links ->
  Forall business_address (clicked_links elements business_links)
  /\ length (clicked_links elements business_links)
     <= length business_links + length elements.
Proof.
  induction elements as [|element rest IH]; intros business_links Hall;
    cbn [clicked_links].
  - split; [exact Hall|simpl; lia].
  - assert (Hskip :
      Forall business_address (clicked_links rest business_links)
      /\ length (clicked_links rest business_links)
         <= length business_links + length (element :: rest)).
    { destruct (IH business_links Hall) as (H1 & H2).
      split; [exact H1|simpl; lia]. }
    match goal with
    | |- context [match ?reached with Ok _ => _ | Raise _ => _ end] =>
        destruct reached as [business_url|]; [|exact Hskip]
    end.
    destruct (is_business_url business_url) eqn:Hok; [|exact Hskip].
    destruct (IH (business_links ++ [business_url])) as (H1 & H2).
    { apply Forall_app. split; [exact Hall|].
      constructor; [exact (is_business_url_address _ Hok)|constructor]. }
    split; [exact H1|rewrite length_app in H2; simpl in *; lia].
Qed.

Lemma find_business_elements_used b : forall selectors elements used_selector,
  find_business_elements b selectors = Ok (elements, used_selector) ->
  elements <> [] ->
  In used_selector selectors /\ find_elements b used_selector = Ok elements.
Proof.
  induction selectors as [|selector rest IH]; intros elements used_selector;
    cbn [find_business_elements].
  - intros H. injection H as <- <-. congruence.
  - destruct (find_elements b selector) as [found|] eqn:Hfound;
      cbn [res_bind]; [|discriminate].
    destruct found as [|x found].
    + intros H Hne. destruct (IH _ _ H Hne) as [Hin Hf].
      split; [right; exact Hin|exact Hf].
    + intros H _. injection H as <- <-. split; [left; reflexivity|exact Hfound].
Qed.

(** What the body of the [try] leaves in [business_links]. *)
Lemma extract_body_links b :
  Forall business_address (extract_body b).1
  /\ ((extract_body b).1 = []
      \/ exists selector elements,
           In selector (selectors_for (check_for_new_ui b))
           /\ find_elements b selector = Ok elements
           /\ length (extract_body b).1 <= length elements
           /\ (check_for_new_ui b = true ->
               forall u, In u (extract_body b).1 -> href_of elements u)).
Proof.
  unfold extract_body.
  destruct (save_screenshot b "before_extracting_links.png");
    [|split; [constructor|left; reflexivity]].
  destruct (find_business_elements b (selectors_for (check_for_new_ui b)))
    as [[elements used_selector]|] eqn:Hfind;
    [|split; [constructor|left; reflexivity]].
  destruct elements as [|element elements];
    [split; [constructor|left; reflexivity]|].
  destruct (find_business_elements_used _ _ _ _ Hfind) as [Hin Hfound];
    [discriminate|].
  destruct (direct_links_spec (element :: elements) []) as (D1 & D2 & D3);
    [constructor|].
  destruct (clicked_links_spec (element :: elements) []) as (C1 & C2);
    [constructor|].
  destruct (check_for_new_ui b) eqn:Hui.
  - rewrite orb_true_r. cbn [fst]. split; [exact D1|].
    right. exists used_selector, (element :: elements).
    split; [exact Hin|]. split; [exact Hfound|]. split; [exact D2|].
    intros _ u Hu. destruct (D3 u Hu) as [[]|H]. exact H.
  - rewrite orb_false_r.
    destruct (Py.contains "maps/place" used_selector
              || Py.contains "href" used_selector); cbn [fst].
    + split; [exact D1|]. right. exists used_selector, (element :: elements).
      split; [exact Hin|]. split; [exact Hfound|]. split; [exact D2|].
      discriminate.
    + split; [exact C1|]. right. exists used_selector, (element :: elements).
      split; [exact Hin|]. split; [exact Hfound|]. split; [exact C2|].
      discriminate.
Qed.

Lemma extract_business_links_body b business_links :
  extract_business_links b = Ok business_links ->
  business_links = (extract_body b).1.
Proof.
  unfold extract_business_links.
  destruct (extract_body b) as [links [|e]]; cbn [fst].
  - intros H. injection H as <-. reflexivity.
  - destruct (save_screenshot b "error_extracting_links.png");
      cbn [res_bind]; [|discriminate].
    intros H. injection H as <-. reflexivity.
Qed.

(** X18.  Every link [extract_business_links] returns contains
    [maps/place] or [maps/search], and there is at most one link per
    element of the selector that matched.  The function raises only
    when the screenshot of its [except] clause raises, and then with
    that exception. *)
Theorem extracted_links_are_business_addresses (b : Browser) :
  match extract_business_links b with
  | Ok business_links =>
      Forall (fun u => Py.contains "maps/place" u = true
                       \/ Py.contains "maps/search" u = true) business_links
      /\ (business_links = []
          \/ exists selector elements,
               In selector (selectors_for (check_for_new_ui b))
               /\ find_elements b selector = Ok elements
               /\ length business_links <= length elements)
  | Raise e => save_screenshot b "error_extracting_links.png" = Raise e
  end.
Proof.
  destruct (extract_business_links b) as [business_links|e] eqn:Hlinks.
  - apply extract_business_links_body in Hlinks. subst business_links.
    destruct (extract_body_links b) as [Hall Hbound].
    split; [exact Hall|].
    destruct Hbound as [H|(selector & elements & H1 & H2 & H3 & _)]; [auto|].
    right. exists selector, elements. auto.
  - unfold extract_business_links in Hlinks.
    destruct (extract_body b) as [links [|e']]; [discriminate|].
    destruct (save_screenshot b "error_extracting_links.png");
      cbn [res_bind] in Hlinks; [discriminate|].
    injection Hlinks as <-. reflexivity.
Qed.

(** X19.  When the new interface is detected, every link returned is the
    [href] attribute of one of the elements found, whatever opening the
    elements would lead to: elements without that attribute give no
    link. *)
Theorem new_interface_links_are_hrefs
    (b : Browser) (business_links : list string) (u : string) :
  check_for_new_ui b = true ->
  extract_business_links b = Ok business_links ->
  In u business_links ->
  exists selector elements element,
    find_elements b selector = Ok elements
    /\ In element elements
    /\ get_href element = Ok (Some u).
Proof.
  intros Hui Hlinks Hu.
  apply extract_business_links_body in Hlinks. subst business_links.
  destruct (extract_body_links b) as [_ [Hnil|(selector & elements & _ & Hf & _ & Hh)]].
  - rewrite Hnil in Hu. destruct Hu.
  - destruct (Hh Hui u Hu) as (element & Hin & Hhref).
    exists selector, elements, element. auto.
Qed.

Lemma new_interface_links_are_hrefs_witness :
  exists selector elements element,
    find_elements new_results selector = Ok elements
    /\ In element elements
    /\ get_href element = Ok (Some "https://www.google.com/maps/place/Bar").
Proof.
  apply (new_interface_links_are_hrefs new_results
           [ "https://www.google.com/maps/place/Cafe";
             "https://www.google.com/maps/place/Bar" ]).
  - reflexivity.
  - reflexivity.
  - right. left. reflexivity.
Defined.

End LinksMore.

(** * The whole run: what [scrape_businesses] returns *)

Module BatchMore.
Import Batch.

(** A record that went through the test of the loop and is not an error
    record. *)
Definition scraped (business_data : record) : Prop :=
  has_basic_data business_data = true /\ business_data !! "error" = None.

Lemma extracted_with_data_has_no_error page url business_data :
  Detail.extract_business_data page url = Ok business_data ->
  has_basic_data business_data = true ->
  business_data !! "error" = None.
Proof.
  unfold Detail.extract_business_data.
  destruct (Detail.extract_body page url) as [bd|e] eqn:Hbody.
  - intros H _. apply DetailMore.Ok_inj in H. subst business_data.
    unfold Detail.extract_body in Hbody.
    destruct (Detail.load page); cbn [res_bind] in Hbody; [|discriminate].
    repeat match type of Hbody with
           | context [Detail.chain ?p ?s ?f ?v] =>
               destruct (Detail.chain p s f v); cbn [res_bind] in Hbody;
                 [|discriminate]
           end.
    apply DetailMore.Ok_inj in Hbody. subst bd. unfold Detail.non_empty_data.
    apply map_lookup_filter_None. left.
    rewrite !lookup_insert_ne by discriminate. apply lookup_empty.
  - intros H. apply DetailMore.Ok_inj in H. subst business_data.
    unfold has_basic_data.
    rewrite !lookup_insert_ne by discriminate. rewrite !lookup_empty.
    cbn [default truthy orb]. rewrite andb_false_r. discriminate.
Qed.

Lemma scrape_links_spec s : forall business_links i results,
  Forall scraped results ->
  Forall scraped (scrape_links s i business_links results)
  /\ length (scrape_links s i business_links results)
     <= length results + length business_links.
Proof.
  induction business_links as [|url rest IH]; intros i results Hall;
    cbn [scrape_links].
  - split; [exact Hall|simpl; lia].
  - assert (Hskip :
      Forall scraped (scrape_links s (S i) rest results)
      /\ length (scrape_links s (S i) rest results)
         <= length results + length (url :: rest)).
    { destruct (IH (S i) results Hall) as [H1 H2].
      split; [exact H1|simpl; lia]. }
    destruct (Detail.extract_business_data (detail s i) url)
      as [business_data|] eqn:Hdata; [|exact Hskip].
    destruct (has_basic_data business_data) eqn:Hbasic; [|exact Hskip].
    destruct (IH (S i) (results ++ [business_data])) as [H1 H2].
    { apply Forall_app. split; [exact Hall|].
      constructor; [|constructor]. split; [exact Hbasic|].
      exact (extracted_with_data_has_no_error _ _ _ Hdata Hbasic). }
    split; [exact H1|rewrite length_app in H2; simpl in *; lia].
Qed.

(** X20.  [scrape_businesses] never returns an empty list.  It returns
    either the single dummy record that carries an error message, the
    query, the location and the time; or at least one and at most
    [max_results] records, each with a name or an address and without
    an [error] key. *)
Theorem scrape_businesses_shape
    (s : Session) (query location : string) (max_results : nat) :
  (exists msg,
     scrape_businesses s query location max_results
     = [error_record msg query location (now s)])
  \/ (1 <= length (scrape_businesses s query location max_results)
      /\ length (scrape_businesses s query location max_results) <= max_results
      /\ Forall (fun business_data =>
                   has_basic_data business_data = true
                   /\ business_data !! "error" = None)
           (scrape_businesses s query location max_results)).
Proof.
  unfold scrape_businesses.
  destruct (scrape_body s query location max_results) as [results|e] eqn:Hbody;
    [|left; eauto].
  unfold scrape_body in Hbody.
  destruct (search s); cbn [res_bind] in Hbody; [|discriminate].
  destruct (load_results s query location max_results);
    cbn [res_bind] in Hbody; [|discriminate].
  destruct (Links.extract_business_links (links_page s)) as [business_links|];
    cbn [res_bind] in Hbody; [|discriminate].
  destruct (match business_links with
            | [] => Ok tt
            | _ :: _ => write_links s business_links
            end); cbn [res_bind] in Hbody; [|discriminate].
  destruct (scrape_links_spec s (take max_results business_links) 0 [])
    as [Hall Hlen]; [constructor|].
  rewrite length_take in Hlen. simpl in Hlen.
  destruct (scrape_links s 0 (take max_results business_links) [])
    as [|business_data results'] eqn:Hresults.
  - left. apply DetailMore.Ok_inj in Hbody. subst results. eauto.
  - right. apply DetailMore.Ok_inj in Hbody. subst results.
    split; [simpl; lia|]. split; [lia|exact Hall].
Qed.

(** The two kinds of result, on a run in which everything answers and
    on a run whose session is lost. *)
Example scrape_businesses_smooth :
  length (scrape_businesses smooth "cafes" "Paris" 5) = 2.
Proof. vm_compute. reflexivity. Qed.

Example scrape_businesses_lost :
  scrape_businesses lost "cafes" "Paris" 5
  = [error_record "invalid session id" "cafes" "Paris" "2024-01-01T00:00:00"].
Proof. vm_compute. reflexivity. Qed.

End BatchMore.
